(** * pdfextract: the page-range parser and the extraction orchestrator

    A shallow embedding of [pdfextract.py].

    Scope of the embedding.
    - A Python [str] is a [string] whose characters are read as the code
      points 0..255; over that range the only decimal digits are "0".."9".
    - A Python [int] is a [Z]; a Python [list] is a [list]; the [set] named
      [seen] is a [gset Z].  [list.extend] on a range raises
      [OverflowError] when the range has more than [PY_SSIZE_T_MAX] values
      (64-bit CPython).  Running out of memory ([MemoryError]) is not part
      of the embedding: there, a list within that length can always be
      built.
    - [int] follows CPython's [PyLong_FromUnicodeObject] for base 10,
      with the default limit of 4300 digits on a literal.
    - The document library (PyMuPDF) is an environment record telling how
      each call on it answers. *)

From Stdlib Require Import ZArith Ascii String List Bool Lia.
From stdpp Require Import base decidable option list gmap sets strings.

Local Open Scope string_scope.
Local Open Scope list_scope.
Local Open Scope Z_scope.

(** ** Python built-ins used by the source *)

Module Py.

Definition ord (c : ascii) : N := N_of_ascii c.

(** [Py_ISSPACE]: the ASCII table used by the C integer parser. *)
Definition Py_ISSPACE (c : ascii) : bool :=
  ((9 <=? ord c) && (ord c <=? 13) || (ord c =? 32))%N.

(** [str.isspace] on one character (code points below 256). *)
Definition isspace (c : ascii) : bool :=
  (Py_ISSPACE c || (28 <=? ord c) && (ord c <=? 31)
   || (ord c =? 133) || (ord c =? 160))%N.

(** [_PyLong_DigitValue] restricted to base 10. *)
Definition digit_value (c : ascii) : option Z :=
  if ((48 <=? ord c) && (ord c <=? 57))%N
  then Some (Z.of_N (ord c) - 48) else None.

(** [str.lstrip()], [str.rstrip()] and [str.strip()] without argument. *)
Fixpoint lstrip (s : string) : string :=
  match s with
  | String c s' => if isspace c then lstrip s' else s
  | EmptyString => EmptyString
  end.

Fixpoint rstrip (s : string) : string :=
  match s with
  | String c s' =>
      match rstrip s' with
      | EmptyString => if isspace c then EmptyString else String c EmptyString
      | r => String c r
      end
  | EmptyString => EmptyString
  end.

Definition strip (s : string) : string := rstrip (lstrip s).

(** [sep in s] for a one-character [sep]. *)
Fixpoint contains (sep : ascii) (s : string) : bool :=
  match s with
  | String c s' => Ascii.eqb c sep || contains sep s'
  | EmptyString => false
  end.

(** [s.split(sep)] for a one-character [sep]: never an empty list. *)
Fixpoint split (sep : ascii) (s : string) : list string :=
  match s with
  | EmptyString => [EmptyString]
  | String c s' =>
      if Ascii.eqb c sep then EmptyString :: split sep s'
      else match split sep s' with
           | w :: ws => String c w :: ws
           | [] => [String c EmptyString]
           end
  end.

(** [_PyUnicode_TransformDecimalAndSpaceToASCII], one character at a
    time: characters below 127 are kept, other white space becomes a
    blank, anything else becomes "?".  (CPython ends the buffer at the
    first "?"; the integer parser stops there with an error either way.) *)
Definition to_ascii (c : ascii) : ascii :=
  if (ord c <? 127)%N then c else if isspace c then " "%char else "?"%char.

Fixpoint TransformDecimalAndSpaceToASCII (s : string) : string :=
  match s with
  | EmptyString => EmptyString
  | String c s' => String (to_ascii c) (TransformDecimalAndSpaceToASCII s')
  end.

Fixpoint skip_spaces (s : string) : string :=
  match s with
  | String c s' => if Py_ISSPACE c then skip_spaces s' else s
  | EmptyString => EmptyString
  end.

(** [sys.int_info.default_max_str_digits] and
    [_PY_LONG_MAX_STR_DIGITS_THRESHOLD]: a decimal literal of more digits
    than the limit is refused with a [ValueError]. *)
Definition max_str_digits : N := 4300.
Definition MAX_STR_DIGITS_THRESHOLD : N := 640.

Definition exceeds_max_str_digits (digits : N) : bool :=
  ((MAX_STR_DIGITS_THRESHOLD <? digits) && (0 <? max_str_digits)
   && (max_str_digits <? digits))%N.

(** The scanning loop of [long_from_string_base]: digits and single
    underscores between them; [prev] is the character read last and
    [digits] counts the digits read (underscores are not counted).  The
    result is the value read, the count, and the text left at the first
    character that is neither digit nor underscore. *)
Fixpoint scan_digits (p : string) (prev : ascii) (digits : N) (z : Z)
    : option (Z * N * string) :=
  match p with
  | String c p' =>
      if Ascii.eqb c "_" then
        if Ascii.eqb prev "_" then None else scan_digits p' c digits z
      else
        match digit_value c with
        | Some d => scan_digits p' c (N.succ digits) (10 * z + d)
        | None => if Ascii.eqb prev "_" then None else Some (z, digits, p)
        end
  | EmptyString => if Ascii.eqb prev "_" then None else Some (z, digits, p)
  end.

Definition long_from_string_base (str : string) : option Z :=
  match str with
  | String "_" _ => None                       (* leading underscore *)
  | _ =>
      match scan_digits str "000" 0 0 with
      | None => None
      | Some (z, digits, end_) =>
          if exceeds_max_str_digits digits then None         (* over the limit *)
          else if (String.length end_ =? String.length str)%nat then None (* no digit *)
          else match skip_spaces end_ with
               | EmptyString => Some z
               | String _ _ => None
               end
      end
  end.

Definition PyLong_FromString (str : string) : option Z :=
  let str := skip_spaces str in
  match str with
  | String "+" str' => long_from_string_base str'
  | String "-" str' => Z.opp <$> long_from_string_base str'
  | _ => long_from_string_base str
  end.

(** [int(s)] on a [str]: [None] stands for the [ValueError] it raises. *)
Definition int (s : string) : option Z :=
  PyLong_FromString (TransformDecimalAndSpaceToASCII s).

(** The values of [range(start, stop)], in order, and [len] of it. *)
Definition range (start stop : Z) : list Z := seqZ start (stop - start).
Definition len_range (start stop : Z) : Z := Z.max 0 (stop - start).

(** [PY_SSIZE_T_MAX] of 64-bit CPython: [len] of a longer range raises
    [OverflowError], and so does [list.extend], which asks for it first. *)
Definition PY_SSIZE_T_MAX : Z := 9223372036854775807.

End Py.

(** ** [parse_page_ranges] *)

(** The three [ValueError]s the parser raises, each with the token it names. *)
Inductive ValueError : Type :=
  | RangoInvalido (part : string)                (* "Rango inválido: '{part}'" *)
  | RangoInvalidoInicioMayorFin (part : string)  (* "Rango inválido: '{part}' (inicio > fin)" *)
  | NumeroDePaginaInvalido (part : string).      (* "Número de página inválido: '{part}'" *)

(** What comes out of the parser besides a result: one of its own
    [ValueError]s, or the [OverflowError] of [pages.extend]. *)
Inductive exception : Type :=
  | ExcValueError (e : ValueError)
  | OverflowError.

Coercion ExcValueError : ValueError >-> exception.

Inductive raising (A : Type) : Type :=
  | Returns (a : A)
  | Raises (e : exception).
Arguments Returns {A} a.
Arguments Raises {A} e.

Definition error_part (e : ValueError) : string :=
  match e with
  | RangoInvalido part | RangoInvalidoInicioMayorFin part
  | NumeroDePaginaInvalido part => part
  end.

(** The body of the first loop for a stripped, non-empty [part]: the values
    it appends to [pages], or the error it raises.  Unpacking
    [start, end = map(int, part.split('-'))] raises a [ValueError] when a
    field is not an integer and when there are not exactly two fields;
    [pages.extend(range(start, end + 1))] raises [OverflowError], outside
    the [try], when the range is longer than [PY_SSIZE_T_MAX]. *)
Definition part_values (part : string) : raising (list Z) :=
  if Py.contains "-" part then
    match Py.split "-" part with
    | [a; b] =>
        match Py.int a, Py.int b with
        | Some start, Some end_ =>
            if start >? end_ then Raises (RangoInvalidoInicioMayorFin part)
            else if Py.PY_SSIZE_T_MAX <? Py.len_range start (end_ + 1)
            then Raises OverflowError
            else Returns (Py.range start (end_ + 1))
        | _, _ => Raises (RangoInvalido part)
        end
    | _ => Raises (RangoInvalido part)
    end
  else
    match Py.int part with
    | Some n => Returns [n]
    | None => Raises (NumeroDePaginaInvalido part)
    end.

(** The first loop: [for part in parts], with [pages] threaded through. *)
Fixpoint parse_parts (parts : list string) (pages : list Z) : raising (list Z) :=
  match parts with
  | [] => Returns pages
  | part :: parts' =>
      let part := Py.strip part in
      if String.eqb part "" then parse_parts parts' pages
      else match part_values part with
           | Raises e => Raises e
           | Returns vs => parse_parts parts' (pages ++ vs)
           end
  end.

(** The second loop: [for p in pages], with [seen] and [valid_pages]. *)
Fixpoint filter_pages (total_pages : Z) (pages : list Z)
    (seen : gset Z) (valid_pages : list Z) : list Z :=
  match pages with
  | [] => valid_pages
  | p :: pages' =>
      if (1 <=? p) && (p <=? total_pages) && negb (bool_decide (p ∈ seen))
      then filter_pages total_pages pages' ({[p]} ∪ seen) (valid_pages ++ [p])
      else filter_pages total_pages pages' seen valid_pages
  end.

Definition parse_page_ranges (page_ranges : string) (total_pages : Z) : raising (list Z) :=
  match parse_parts (Py.split "," page_ranges) [] with
  | Raises e => Raises e
  | Returns pages => Returns (filter_pages total_pages pages ∅ [])
  end.

(** ** [extract_pages] *)

(** The document library as the orchestrator meets it. *)
Module Fitz.

(** What a file holds: the number of pages, and for which 0-based page
    numbers copying the page out of it raises. *)
Record Document : Type := {
  page_count : nat;
  insert_pdf_raises : Z -> bool
}.

(** [open_file path] is [None] when [fitz.open(path)] raises;
    [save_raises path] tells whether [save(path)] raises. *)
Record Env : Type := {
  open_file : string -> option Document;
  save_raises : string -> bool
}.

(** A document object: its identity and, for one opened from a file, the
    file's content. *)
Record handle : Type := { hid : nat; hdoc : option Document }.

End Fitz.

Inductive library_error : Type := OpenFailed | InsertFailed | SaveFailed.

(** Python exceptions below [Exception] that occur in a run. *)
Inductive exn : Type :=
  | ExnValueError (e : ValueError)
  | ExnOverflowError
  | ExnLibrary (e : library_error).

(** The argument of each [sys.exit] call of [extract_pages]. *)
Inductive exit_message : Type :=
  | ErrorAlAbrir (input_pdf : string) (e : exn)
  | PdfVacio
  | ErrorFormatoRangos (e : ValueError)
  | NoPaginasValidas
  | ErrorAlGuardar (output_pdf : string) (e : exn).

Inductive event : Type :=
  | EvOpen (h : nat) (path : option string)
  | EvInsertPdf (dst src : nat) (from_page to_page : Z)
  | EvSave (h : nat) (path : string)
  | EvClose (h : nat)
  | EvPrint (output_pdf : string).

Record world : Type := { next_handle : nat; trace : list event }.

Inductive outcome (A : Type) : Type :=
  | Normal (a : A)
  | Raised (e : exn)
  | SystemExit (m : exit_message).
Arguments Normal {A} a.
Arguments Raised {A} e.
Arguments SystemExit {A} m.

(** State and control in one monad: the world is threaded through, an
    exception or [SystemExit] skips the rest. *)
Definition M (A : Type) : Type := world -> outcome A * world.

Definition ret {A} (a : A) : M A := fun w => (Normal a, w).

Definition bind {A B} (m : M A) (k : A -> M B) : M B :=
  fun w =>
    match m w with
    | (Normal a, w') => k a w'
    | (Raised e, w') => (Raised e, w')
    | (SystemExit msg, w') => (SystemExit msg, w')
    end.

Notation "x <- m ;; k" := (bind m (fun x => k))
  (at level 100, m at next level, right associativity).
Notation "m ;;; k" := (bind m (fun _ => k))
  (at level 100, right associativity).

Definition raise {A} (e : exn) : M A := fun w => (Raised e, w).
Definition sys_exit {A} (m : exit_message) : M A := fun w => (SystemExit m, w).
Definition emit (ev : event) : M unit :=
  fun w => (Normal tt, {| next_handle := next_handle w; trace := trace w ++ [ev] |}).

(** [try: m except C as e: handler e], where [catches] tells which
    exceptions belong to [C].  [SystemExit] is not an [Exception]. *)
Definition try_except {A} (m : M A) (catches : exn -> bool) (handler : exn -> M A) : M A :=
  fun w =>
    match m w with
    | (Raised e, w') => if catches e then handler e w' else (Raised e, w')
    | r => r
    end.

Definition Exception (e : exn) : bool := true.
Definition IsValueError (e : exn) : bool :=
  match e with ExnValueError _ => true | _ => false end.

Fixpoint for_each {A} (l : list A) (body : A -> M unit) : M unit :=
  match l with
  | [] => ret tt
  | a :: l' => body a ;;; for_each l' body
  end.

Section Orchestrator.

Variable env : Fitz.Env.

Definition fresh (path : option string) (d : option Fitz.Document) : M Fitz.handle :=
  fun w =>
    (Normal {| Fitz.hid := next_handle w; Fitz.hdoc := d |},
     {| next_handle := S (next_handle w);
        trace := trace w ++ [EvOpen (next_handle w) path] |}).

(** [fitz.open(path)] *)
Definition fitz_open (path : string) : M Fitz.handle :=
  match Fitz.open_file env path with
  | Some d => fresh (Some path) (Some d)
  | None => raise (ExnLibrary OpenFailed)
  end.

(** [fitz.open()] *)
Definition fitz_open_new : M Fitz.handle := fresh None None.

(** [len(doc)] *)
Definition len (doc : Fitz.handle) : Z :=
  match Fitz.hdoc doc with
  | Some d => Z.of_nat (Fitz.page_count d)
  | None => 0
  end.

(** [dst.insert_pdf(src, from_page=a, to_page=b)] *)
Definition insert_pdf (dst src : Fitz.handle) (from_page to_page : Z) : M unit :=
  match Fitz.hdoc src with
  | Some d =>
      if Fitz.insert_pdf_raises d from_page then raise (ExnLibrary InsertFailed)
      else emit (EvInsertPdf (Fitz.hid dst) (Fitz.hid src) from_page to_page)
  | None => emit (EvInsertPdf (Fitz.hid dst) (Fitz.hid src) from_page to_page)
  end.

(** [doc.save(path)] *)
Definition save (doc : Fitz.handle) (path : string) : M unit :=
  if Fitz.save_raises env path then raise (ExnLibrary SaveFailed)
  else emit (EvSave (Fitz.hid doc) path).

(** [doc.close()] *)
Definition close (doc : Fitz.handle) : M unit := emit (EvClose (Fitz.hid doc)).

Definition call_parse_page_ranges (page_ranges : string) (total_pages : Z) : M (list Z) :=
  match parse_page_ranges page_ranges total_pages with
  | Returns l => ret l
  | Raises (ExcValueError e) => raise (ExnValueError e)
  | Raises OverflowError => raise ExnOverflowError
  end.

Definition extract_pages (input_pdf output_pdf page_ranges : string) : M unit :=
  doc <- try_except (fitz_open input_pdf) Exception
           (fun e => sys_exit (ErrorAlAbrir input_pdf e)) ;;
  let total_pages := len doc in
  (if total_pages =? 0 then close doc ;;; sys_exit PdfVacio else ret tt) ;;;
  selected_pages <- try_except (call_parse_page_ranges page_ranges total_pages) IsValueError
           (fun e => close doc ;;;
                     match e with
                     | ExnValueError v => sys_exit (ErrorFormatoRangos v)
                     | _ => raise e
                     end) ;;
  (match selected_pages with
   | [] => close doc ;;; sys_exit NoPaginasValidas
   | _ :: _ => ret tt
   end) ;;;
  new_doc <- fitz_open_new ;;
  for_each selected_pages
    (fun page_num => insert_pdf new_doc doc (page_num - 1) (page_num - 1)) ;;;
  try_except (save new_doc output_pdf) Exception
    (fun e => close new_doc ;;; close doc ;;; sys_exit (ErrorAlGuardar output_pdf e)) ;;;
  close new_doc ;;;
  close doc ;;;
  emit (EvPrint output_pdf).

End Orchestrator.

Definition initial_world : world := {| next_handle := 0; trace := [] |}.

(** A whole run of the program on given arguments. *)
Definition run (env : Fitz.Env) (input_pdf output_pdf page_ranges : string)
    : outcome unit * list event :=
  let '(o, w) := extract_pages env input_pdf output_pdf page_ranges initial_world in
  (o, trace w).

(** The exit status of the process: [sys.exit] with a message and an
    uncaught exception both give 1. *)
Definition exit_status (o : outcome unit) : Z :=
  match o with
  | Normal _ => 0
  | Raised _ => 1
  | SystemExit _ => 1
  end.

Definition opened (tr : list event) : list nat :=
  omap (fun ev => match ev with EvOpen h _ => Some h | _ => None end) tr.

Definition closed (tr : list event) : list nat :=
  omap (fun ev => match ev with EvClose h => Some h | _ => None end) tr.

(** How many times the handle [h] is closed along a trace. *)
Definition closes (h : nat) (tr : list event) : nat :=
  length (filter (fun h' => h' = h) (closed tr)).

(** ** Vocabulary of the statements *)

(** The tokens of a selection string: the comma-separated parts, stripped,
    without the empty ones - what the first loop works on. *)
Definition tokens_of (parts : list string) : list string :=
  filter (fun t => t <> "") (Py.strip <$> parts).

Definition tokens (page_ranges : string) : list string :=
  tokens_of (Py.split "," page_ranges).

(** The working sequence: [pages] as it stands when the first loop ends. *)
Definition working_sequence (page_ranges : string) : raising (list Z) :=
  parse_parts (Py.split "," page_ranges) [].

(** A token of the documented grammar: an integer without hyphen, or two
    integer fields around one hyphen with start <= end. *)
Definition well_formed (t : string) : Prop :=
  (Py.contains "-" t = false /\ exists n, Py.int t = Some n) \/
  (exists a b start end_,
     Py.split "-" t = [a; b] /\ Py.int a = Some start /\ Py.int b = Some end_ /\
     start <= end_).

(** The loop body returns for the token. *)
Definition returns (t : string) : Prop := exists vs, part_values t = Returns vs.

(** The range of a range token has no more values than a list can take. *)
Definition fits (t : string) : Prop :=
  forall a b start end_,
    Py.split "-" t = [a; b] -> Py.int a = Some start -> Py.int b = Some end_ ->
    end_ - start + 1 <= Py.PY_SSIZE_T_MAX.

(** [x] first occurs in [l] before [y] first does. *)
Definition first_before (l : list Z) (x y : Z) : Prop :=
  exists l1 l2, l = l1 ++ x :: l2 /\ (y ∉ l1) /\ y <> x.

(** Keep the first occurrence of each value, in place. *)
Fixpoint first_occurrences (l : list Z) : list Z :=
  match l with
  | [] => []
  | x :: l' => x :: filter (fun y => y <> x) (first_occurrences l')
  end.

Definition in_range (total_pages : Z) (p : Z) : Prop := 1 <= p <= total_pages.

#[global] Instance in_range_dec total_pages p : Decision (in_range total_pages p).
Proof. unfold in_range. apply _. Defined.

(** The characters the integer parser skips around a number. *)
Definition int_space (c : ascii) : bool := Py.Py_ISSPACE (Py.to_ascii c).

(** The same characters by their code points: tab, line feed, vertical tab,
    form feed, carriage return, blank, U+0085 and U+00A0. *)
Definition int_whitespace (c : ascii) : bool :=
  match c with
  | "009" | "010" | "011" | "012" | "013" | " " | "133" | "160" => true
  | _ => false
  end%char.


Fixpoint all_chars (P : ascii -> bool) (s : string) : bool :=
  match s with
  | EmptyString => true
  | String c s' => P c && all_chars P s'
  end.




(** Each handle opened along the trace is closed exactly once. *)
Definition closed_exactly_once (tr : list event) : Prop :=
  Forall (fun h => closes h tr = 1%nat) (opened tr).

(** The copy requests of the loop over [selected_pages]. *)
Definition copies (dst src : nat) (selected_pages : list Z) : list event :=
  (fun page_num => EvInsertPdf dst src (page_num - 1) (page_num - 1)) <$> selected_pages.

(** How far the loop over [selected_pages] gets on the document [d]: the
    pages copied before the first one whose copy raises, and whether one
    did raise. *)
Fixpoint copied (d : Fitz.Document) (selected_pages : list Z) : list Z * bool :=
  match selected_pages with
  | [] => ([], false)
  | page_num :: rest =>
      if Fitz.insert_pdf_raises d (page_num - 1) then ([], true)
      else let '(before, raised) := copied d rest in (page_num :: before, raised)
  end.

(** A five-page file whose fourth page cannot be copied. *)
Definition fourth_page_broken : Fitz.Document :=
  {| Fitz.page_count := 5; Fitz.insert_pdf_raises := fun q => q =? 3 |}.

(** An environment with four files: a sound one, an empty one, one with a
    broken page, and one that is missing; saving to "ro.pdf" fails. *)
Definition env_files : Fitz.Env :=
  {| Fitz.open_file := fun path =>
       if String.eqb path "five.pdf"
       then Some {| Fitz.page_count := 5; Fitz.insert_pdf_raises := fun _ => false |}
       else if String.eqb path "empty.pdf"
       then Some {| Fitz.page_count := 0; Fitz.insert_pdf_raises := fun _ => false |}
       else if String.eqb path "broken.pdf" then Some fourth_page_broken
       else None;
     Fitz.save_raises := fun path => String.eqb path "ro.pdf" |}.

(** A one-page file that opens, but whose page cannot be copied (the library
    opens files that are not PDF, and [insert_pdf] refuses them; a PDF with
    a broken page object behaves alike). *)
Definition uncopyable : Fitz.Document :=
  {| Fitz.page_count := 1; Fitz.insert_pdf_raises := fun _ => true |}.

Definition env_uncopyable : Fitz.Env :=
  {| Fitz.open_file := fun _ => Some uncopyable; Fitz.save_raises := fun _ => false |}.

(** A five-page file without defect. *)
Definition five_pages : Fitz.Document :=
  {| Fitz.page_count := 5; Fitz.insert_pdf_raises := fun _ => false |}.

Definition env_five_pages : Fitz.Env :=
  {| Fitz.open_file := fun _ => Some five_pages; Fitz.save_raises := fun _ => false |}.

(** ** Facts about the built-ins *)

Section Strings.

Lemma split_not_nil sep s : Py.split sep s <> [].
Proof.
  destruct s as [|c s]; simpl; [done|].
  destruct (Ascii.eqb c sep); [done|].
  by destruct (Py.split sep s).
Qed.

Lemma split_no_sep sep s : Py.contains sep s = false -> Py.split sep s = [s].
Proof.
  induction s as [|c s IH]; simpl; [done|].
  intros [Hc Hs]%orb_false_iff. rewrite Hc, (IH Hs). done.
Qed.

Lemma split_app_sep sep x y :
  Py.contains sep x = false ->
  Py.split sep (x +:+ String sep y) = x :: Py.split sep y.
Proof.
  induction x as [|c x IH]; simpl.
  - intros _. by rewrite Ascii.eqb_refl.
  - intros [Hc Hx]%orb_false_iff. rewrite Hc, (IH Hx). done.
Qed.

Lemma split_two_contains sep s a b :
  Py.split sep s = [a; b] -> Py.contains sep s = true.
Proof.
  intros H. destruct (Py.contains sep s) eqn:E; [done|].
  rewrite (split_no_sep _ _ E) in H. done.
Qed.




End Strings.

(** ** The first loop, token by token *)

Section FirstLoop.

Implicit Types (parts ts : list string) (pages vs : list Z).

Lemma tokens_of_cons part parts :
  tokens_of (part :: parts) =
  if String.eqb (Py.strip part) "" then tokens_of parts
  else Py.strip part :: tokens_of parts.
Proof.
  unfold tokens_of. rewrite fmap_cons, filter_cons.
  destruct (String.eqb_spec (Py.strip part) ""); case_decide; done.
Qed.

Lemma part_values_error_part t (e : ValueError) :
  part_values t = Raises e -> error_part e = t.
Proof.
  unfold part_values. repeat case_match; intros [= <-]; done.
Qed.

Lemma part_values_range t a b start end_ :
  Py.split "-" t = [a; b] -> Py.int a = Some start -> Py.int b = Some end_ ->
  part_values t =
  if start >? end_ then Raises (RangoInvalidoInicioMayorFin t)
  else if Py.PY_SSIZE_T_MAX <? end_ - start + 1 then Raises OverflowError
  else Returns (Py.range start (end_ + 1)).
Proof.
  intros Hs Ha Hb. unfold part_values.
  rewrite (split_two_contains _ _ _ _ Hs), Hs, Ha, Hb.
  destruct (Z.gtb_spec start end_); [done|].
  unfold Py.len_range. by replace (Z.max 0 (end_ + 1 - start)) with (end_ - start + 1) by lia.
Qed.

Lemma returns_well_formed t : returns t -> well_formed t /\ fits t.
Proof.
  intros [vs H]. destruct (Py.contains "-" t) eqn:Hc.
  - unfold part_values in H. rewrite Hc in H.
    destruct (Py.split "-" t) as [|a [|b [|]]] eqn:Hs; try done.
    destruct (Py.int a) as [start|] eqn:Ha; [|done].
    destruct (Py.int b) as [end_|] eqn:Hb; [|done].
    destruct (Z.gtb_spec start end_); [done|].
    destruct (Z.ltb_spec Py.PY_SSIZE_T_MAX (Py.len_range start (end_ + 1))); [done|].
    unfold Py.len_range in *. split.
    + right. exists a, b, start, end_. repeat split; [done..|lia].
    + intros a' b' start' end' Hs'. rewrite Hs in Hs'. injection Hs' as <- <-.
      rewrite Ha, Hb. intros [= <-] [= <-]. lia.
  - split.
    + left. split; [done|]. unfold part_values in H. rewrite Hc in H.
      destruct (Py.int t); [eauto | done].
    + intros a b start end_ Hs. by rewrite (split_no_sep _ _ Hc) in Hs.
Qed.

Lemma well_formed_fits_returns t : well_formed t -> fits t -> returns t.
Proof.
  intros [[Hc [n Hn]] | (a & b & start & end_ & Hs & Ha & Hb & Hle)] Hfits.
  - exists [n]. unfold part_values. by rewrite Hc, Hn.
  - exists (Py.range start (end_ + 1)).
    rewrite (part_values_range _ _ _ _ _ Hs Ha Hb).
    destruct (Z.gtb_spec start end_); [lia|].
    specialize (Hfits _ _ _ _ Hs Ha Hb).
    by destruct (Z.ltb_spec Py.PY_SSIZE_T_MAX (end_ - start + 1)); [lia|].
Qed.

Lemma well_formed_returns t : well_formed t /\ fits t <-> returns t.
Proof.
  split; [intros [? ?]; by apply well_formed_fits_returns | apply returns_well_formed].
Qed.

(** A [ValueError] is raised for tokens outside the grammar only. *)
Lemma value_error_not_well_formed t (e : ValueError) :
  part_values t = Raises e -> ~ well_formed t.
Proof.
  intros H [[Hc [n Hn]] | (a & b & start & end_ & Hs & Ha & Hb & Hle)].
  - unfold part_values in H. by rewrite Hc, Hn in H.
  - rewrite (part_values_range _ _ _ _ _ Hs Ha Hb) in H.
    destruct (Z.gtb_spec start end_); [lia|].
    by destruct (Py.PY_SSIZE_T_MAX <? end_ - start + 1).
Qed.

(** [OverflowError] is raised for tokens of the grammar whose range is too
    long, and for no others. *)
Lemma overflow_iff t :
  part_values t = Raises OverflowError <-> well_formed t /\ ~ fits t.
Proof.
  split.
  - intros H. unfold part_values in H.
    destruct (Py.contains "-" t) eqn:Hc; [|by destruct (Py.int t)].
    destruct (Py.split "-" t) as [|a [|b [|]]] eqn:Hs; try done.
    destruct (Py.int a) as [start|] eqn:Ha; [|done].
    destruct (Py.int b) as [end_|] eqn:Hb; [|done].
    destruct (Z.gtb_spec start end_); [done|].
    destruct (Z.ltb_spec Py.PY_SSIZE_T_MAX (Py.len_range start (end_ + 1))); [|done].
    unfold Py.len_range in *. split.
    + right. exists a, b, start, end_. repeat split; [done..|lia].
    + intros Hfits. specialize (Hfits _ _ _ _ Hs Ha Hb). lia.
  - intros [Hwf Hnf]. destruct (part_values t) as [vs|[e|]] eqn:Hpv; [| |done].
    + destruct Hnf. apply returns_well_formed. by exists vs.
    + by destruct (value_error_not_well_formed _ _ Hpv).
Qed.

Lemma parse_parts_returns parts pages out :
  parse_parts parts pages = Returns out <->
  exists vss,
    Forall2 (fun t vs => part_values t = Returns vs) (tokens_of parts) vss /\
    out = pages ++ concat vss.
Proof.
  revert pages. induction parts as [|part parts IH]; intros pages.
  - simpl. split.
    + intros [= <-]. exists []. split; [constructor | by rewrite app_nil_r].
    + intros (vss & H & ->). inversion H; subst. simpl. by rewrite app_nil_r.
  - rewrite tokens_of_cons. simpl.
    destruct (String.eqb (Py.strip part) ""); [apply IH|].
    destruct (part_values (Py.strip part)) as [vs|e] eqn:Hpv.
    + rewrite IH. split.
      * intros (vss & H & ->). exists (vs :: vss).
        split; [by constructor | simpl; by rewrite app_assoc].
      * intros (vss & H & ->). inversion H as [|? vs' ? vss' Hvs Hrest]; subst.
        rewrite Hpv in Hvs. injection Hvs as <-.
        exists vss'. split; [done | simpl; by rewrite app_assoc].
    + split; [done|]. intros (vss & H & _).
      inversion H as [|? vs' ? vss' Hvs Hrest]; subst. congruence.
Qed.

Lemma parse_parts_raises parts pages e :
  parse_parts parts pages = Raises e <->
  exists pre t post,
    tokens_of parts = pre ++ t :: post /\
    Forall returns pre /\
    part_values t = Raises e.
Proof.
  revert pages. induction parts as [|part parts IH]; intros pages.
  - simpl. split; [done|]. intros (pre & t & post & H & _).
    by destruct pre.
  - rewrite tokens_of_cons. simpl.
    destruct (String.eqb (Py.strip part) ""); [apply IH|].
    destruct (part_values (Py.strip part)) as [vs|e'] eqn:Hpv.
    + rewrite IH. split.
      * intros (pre & t & post & -> & Hpre & Ht).
        exists (Py.strip part :: pre), t, post. split; [done|].
        split; [|done]. constructor; [|done]. by exists vs.
      * intros (pre & t & post & Htok & Hpre & Ht).
        destruct pre as [|p0 pre]; simpl in Htok; injection Htok as Hp0 Htok.
        { rewrite Hp0 in Hpv. congruence. }
        exists pre, t, post. by inversion Hpre; subst.
    + split.
      * intros [= ->]. exists [], (Py.strip part), (tokens_of parts).
        by repeat split.
      * intros (pre & t & post & Htok & Hpre & Ht).
        destruct pre as [|p0 pre]; simpl in Htok; injection Htok as Hp0 Htok.
        { rewrite Hp0 in Hpv. congruence. }
        inversion Hpre as [|? ? [vs Hvs] _]; subst. congruence.
Qed.

(** The first loop returns when every token does, whatever the page count. *)
Lemma parse_parts_all_return parts pages :
  Forall returns (tokens_of parts) ->
  exists vss,
    Forall2 (fun t vs => part_values t = Returns vs) (tokens_of parts) vss /\
    parse_parts parts pages = Returns (pages ++ concat vss).
Proof.
  intros Hall.
  destruct (parse_parts parts pages) as [out|e] eqn:Hp.
  - apply parse_parts_returns in Hp as (vss & H & ->). eauto.
  - apply parse_parts_raises in Hp as (pre & t & post & Htok & _ & Ht).
    rewrite Htok in Hall. apply Forall_app in Hall as [_ Hall].
    inversion Hall as [|? ? [vs Hvs] _]; subst. congruence.
Qed.

End FirstLoop.

(** ** The second loop *)

Section SecondLoop.

Variable total_pages : Z.
Implicit Types (pages valid_pages : list Z) (seen : gset Z).

Lemma keep_spec p seen :
  (1 <=? p) && (p <=? total_pages) && negb (bool_decide (p ∈ seen)) = true <->
  in_range total_pages p /\ p ∉ seen.
Proof.
  unfold in_range.
  rewrite !andb_true_iff, negb_true_iff, bool_decide_eq_false.
  rewrite Z.leb_le, Z.leb_le. tauto.
Qed.

Lemma filter_pages_acc pages seen valid_pages :
  filter_pages total_pages pages seen valid_pages =
  valid_pages ++ filter_pages total_pages pages seen [].
Proof.
  revert seen valid_pages.
  induction pages as [|p pages IH]; intros seen valid_pages; simpl.
  - by rewrite app_nil_r.
  - destruct ((1 <=? p) && (p <=? total_pages) && negb (bool_decide (p ∈ seen))).
    + rewrite (IH _ (valid_pages ++ [p])), (IH _ [p]). by rewrite <- app_assoc.
    + apply IH.
Qed.

Lemma filter_pages_cons p pages seen :
  filter_pages total_pages (p :: pages) seen [] =
  if decide (in_range total_pages p /\ p ∉ seen)
  then p :: filter_pages total_pages pages ({[p]} ∪ seen) []
  else filter_pages total_pages pages seen [].
Proof.
  simpl.
  destruct ((1 <=? p) && (p <=? total_pages) && negb (bool_decide (p ∈ seen))) eqn:E.
  - apply keep_spec in E. rewrite decide_True by done.
    by rewrite filter_pages_acc.
  - rewrite decide_False; [done|]. intros H%keep_spec. congruence.
Qed.

Lemma filter_pages_elem pages seen x :
  x ∈ filter_pages total_pages pages seen [] <->
  x ∈ pages /\ in_range total_pages x /\ x ∉ seen.
Proof.
  revert seen. induction pages as [|p pages IH]; intros seen.
  - simpl. rewrite elem_of_nil. tauto.
  - rewrite filter_pages_cons. case_decide as Hk.
    + rewrite !elem_of_cons, IH, not_elem_of_union, not_elem_of_singleton.
      destruct (decide (x = p)) as [->|]; tauto.
    + rewrite IH, elem_of_cons. destruct (decide (x = p)) as [->|]; tauto.
Qed.

Lemma filter_pages_NoDup pages seen :
  NoDup (filter_pages total_pages pages seen []).
Proof.
  revert seen. induction pages as [|p pages IH]; intros seen.
  - constructor.
  - rewrite filter_pages_cons. case_decide; [|apply IH].
    constructor; [|apply IH].
    rewrite filter_pages_elem, not_elem_of_union, not_elem_of_singleton. tauto.
Qed.

Lemma filter_pages_order pages seen (i j : nat) x y :
  filter_pages total_pages pages seen [] !! i = Some x ->
  filter_pages total_pages pages seen [] !! j = Some y ->
  (i < j)%nat ->
  first_before pages x y.
Proof.
  revert seen i j. induction pages as [|p pages IH]; intros seen i j; [done|].
  rewrite filter_pages_cons. case_decide as Hk.
  - destruct i as [|i], j as [|j]; simpl; try lia.
    + intros [= ->] Hy _. exists [], pages. split; [done|].
      split; [apply not_elem_of_nil|].
      apply list_elem_of_lookup_2, filter_pages_elem in Hy.
      rewrite not_elem_of_union, not_elem_of_singleton in Hy. tauto.
    + intros Hx Hy Hij.
      destruct (IH _ i j Hx Hy ltac:(lia)) as (l1 & l2 & -> & Hn & Hne).
      exists (p :: l1), l2. split; [done|]. split; [|done].
      apply list_elem_of_lookup_2, filter_pages_elem in Hy.
      rewrite not_elem_of_union, not_elem_of_singleton in Hy.
      rewrite not_elem_of_cons. tauto.
  - intros Hx Hy Hij.
    destruct (IH _ i j Hx Hy Hij) as (l1 & l2 & -> & Hn & Hne).
    exists (p :: l1), l2. split; [done|]. split; [|done].
    apply list_elem_of_lookup_2, filter_pages_elem in Hy.
    rewrite not_elem_of_cons. split; [|done]. intros ->. tauto.
Qed.

Lemma filter_pages_first_occurrences_seen pages seen :
  filter_pages total_pages pages seen [] =
  filter (fun x => x ∉ seen) (first_occurrences (filter (in_range total_pages) pages)).
Proof.
  revert seen. induction pages as [|p pages IH]; intros seen; [done|].
  rewrite filter_pages_cons, filter_cons.
  destruct (decide (in_range total_pages p)) as [Hr|Hr].
  - simpl. rewrite filter_cons, list_filter_filter.
    destruct (decide (p ∉ seen)) as [Hs|Hs].
    + rewrite decide_True by done. f_equal. rewrite IH.
      apply list_filter_iff. intros x.
      rewrite not_elem_of_union, not_elem_of_singleton. tauto.
    + rewrite decide_False by tauto. rewrite IH.
      apply list_filter_iff. intros x. split; [|tauto].
      intros Hx. split; [done|]. intros ->. done.
  - rewrite decide_False by tauto. apply IH.
Qed.

Lemma filter_pages_first_occurrences pages :
  filter_pages total_pages pages ∅ [] =
  first_occurrences (filter (in_range total_pages) pages).
Proof.
  rewrite filter_pages_first_occurrences_seen.
  induction (first_occurrences _) as [|x l IH]; [done|].
  rewrite filter_cons, decide_True by apply not_elem_of_empty. by rewrite IH.
Qed.

End SecondLoop.

(** ** The integer parser *)

Ltac ascii_cases c := destruct c as [[|] [|] [|] [|] [|] [|] [|] [|]].

Section Integers.

Lemma space_not_special c :
  Py.Py_ISSPACE c = true ->
  Ascii.eqb c "_" = false /\ Ascii.eqb c "+" = false /\
  Ascii.eqb c "-" = false /\ Py.digit_value c = None.
Proof. ascii_cases c; intros H; try discriminate H; by vm_compute. Qed.

Lemma digit_not_special c d :
  Py.digit_value c = Some d ->
  Ascii.eqb c "_" = false /\ Ascii.eqb c "-" = false /\
  Py.Py_ISSPACE c = false /\ Py.to_ascii c = c.
Proof. ascii_cases c; intros H; try discriminate H; by vm_compute. Qed.

Lemma to_ascii_hyphen c : Ascii.eqb (Py.to_ascii c) "-" = Ascii.eqb c "-".
Proof. by ascii_cases c. Qed.

Lemma isspace_int_space c : int_space c = true -> Py.isspace c = true.
Proof. by ascii_cases c. Qed.

Lemma PyLong_FromString_unfold str :
  Py.PyLong_FromString str =
  match Py.skip_spaces str with
  | String c str' =>
      if Ascii.eqb c "+" then Py.long_from_string_base str'
      else if Ascii.eqb c "-" then Z.opp <$> Py.long_from_string_base str'
      else Py.long_from_string_base (String c str')
  | EmptyString => Py.long_from_string_base EmptyString
  end.
Proof.
  unfold Py.PyLong_FromString. destruct (Py.skip_spaces str) as [|c r]; [done|].
  by ascii_cases c.
Qed.

Lemma long_from_string_base_unfold str :
  Py.long_from_string_base str =
  match str with
  | String c _ =>
      if Ascii.eqb c "_" then None
      else match Py.scan_digits str "000" 0 0 with
           | None => None
           | Some (z, digits, end_) =>
               if Py.exceeds_max_str_digits digits then None
               else if (String.length end_ =? String.length str)%nat then None
               else match Py.skip_spaces end_ with
                    | EmptyString => Some z
                    | String _ _ => None
                    end
           end
  | EmptyString => None
  end.
Proof.
  destruct str as [|c r]; [done|]. unfold Py.long_from_string_base.
  by ascii_cases c.
Qed.


Lemma Transform_spaces w :
  all_chars int_space w = true ->
  all_chars Py.Py_ISSPACE (Py.TransformDecimalAndSpaceToASCII w) = true.
Proof.
  induction w as [|c w IH]; simpl; [done|].
  intros [Hc Hw]%andb_true_iff. unfold int_space in Hc. by rewrite Hc, IH.
Qed.

Lemma Transform_contains_hyphen s :
  Py.contains "-" (Py.TransformDecimalAndSpaceToASCII s) = Py.contains "-" s.
Proof.
  induction s as [|c s IH]; simpl; [done|]. by rewrite to_ascii_hyphen, IH.
Qed.

Lemma skip_spaces_cons c s :
  Py.skip_spaces (String c s) =
  if Py.Py_ISSPACE c then Py.skip_spaces s else String c s.
Proof. done. Qed.

Lemma skip_spaces_all w : all_chars Py.Py_ISSPACE w = true -> Py.skip_spaces w = "".
Proof.
  induction w as [|c w IH]; simpl; [done|].
  intros [-> Hw]%andb_true_iff. auto.
Qed.


Lemma spaces_no_hyphen w :
  all_chars Py.Py_ISSPACE w = true -> Py.contains "-" w = false.
Proof.
  induction w as [|c w IH]; simpl; [done|].
  intros [Hc Hw]%andb_true_iff.
  destruct (space_not_special c Hc) as (_ & _ & -> & _). auto.
Qed.

Lemma skip_spaces_nil_no_hyphen s :
  Py.skip_spaces s = "" -> Py.contains "-" s = false.
Proof.
  induction s as [|c s IH]; simpl; [done|].
  destruct (Py.Py_ISSPACE c) eqn:Hc; [|done].
  destruct (space_not_special c Hc) as (_ & _ & -> & _). auto.
Qed.


Lemma scan_digits_hyphen p prev n z z' n' rest :
  Py.scan_digits p prev n z = Some (z', n', rest) ->
  Py.contains "-" p = Py.contains "-" rest.
Proof.
  revert prev n z. induction p as [|c p IH]; intros prev n z; simpl.
  - destruct (Ascii.eqb prev "_"); [done|]. by intros [= _ _ <-].
  - destruct (Ascii.eqb_spec c "_") as [->|Hc].
    + destruct (Ascii.eqb prev "_"); [done|]. apply IH.
    + destruct (Py.digit_value c) as [d|] eqn:Hd.
      * destruct (digit_not_special c d Hd) as (_ & -> & _). apply IH.
      * destruct (Ascii.eqb prev "_"); [done|]. by intros [= _ _ <-].
Qed.






Lemma int_spaces w : all_chars int_space w = true -> Py.int w = None.
Proof.
  intros Hw. unfold Py.int. apply Transform_spaces in Hw.
  rewrite PyLong_FromString_unfold, (skip_spaces_all _ Hw). done.
Qed.

Lemma long_from_string_base_no_hyphen s z :
  Py.long_from_string_base s = Some z -> Py.contains "-" s = false.
Proof.
  rewrite long_from_string_base_unfold. destruct s as [|c s]; [done|].
  destruct (Ascii.eqb c "_"); [done|].
  destruct (Py.scan_digits (String c s) "000" 0 0) as [[[z' n] rest]|] eqn:Hscan; [|done].
  destruct (Py.exceeds_max_str_digits n); [done|].
  destruct (String.length rest =? String.length (String c s))%nat; [done|].
  destruct (Py.skip_spaces rest) eqn:Hrest; [|done]. intros _.
  rewrite (scan_digits_hyphen _ _ _ _ _ _ _ Hscan).
  by apply skip_spaces_nil_no_hyphen.
Qed.

(** An integer literal that holds a hyphen is white space, the hyphen as
    its sign, and hyphen-free text. *)
Lemma int_hyphen_inv t v :
  Py.int t = Some v -> Py.contains "-" t = true ->
  exists ws rest,
    t = ws +:+ String "-" rest /\ all_chars int_space ws = true /\
    Py.contains "-" rest = false.
Proof.
  unfold Py.int. induction t as [|c t IH]; [done|].
  intros Hint Hc.
  change (Py.TransformDecimalAndSpaceToASCII (String c t))
    with (String (Py.to_ascii c) (Py.TransformDecimalAndSpaceToASCII t)) in Hint.
  rewrite PyLong_FromString_unfold, skip_spaces_cons in Hint.
  destruct (int_space c) eqn:Hsp.
  - pose proof Hsp as Hsp'. unfold int_space in Hsp'.
    destruct (space_not_special _ Hsp') as (_ & _ & Hh & _).
    rewrite to_ascii_hyphen in Hh.
    simpl in Hc. rewrite Hh in Hc. simpl in Hc.
    rewrite Hsp', <- PyLong_FromString_unfold in Hint.
    destruct (IH Hint Hc) as (ws & rest & -> & Hws & Hrest).
    exists (String c ws), rest. simpl. by rewrite Hsp, Hws.
  - unfold int_space in Hsp. rewrite Hsp in Hint. cbv beta iota in Hint.
    destruct (Ascii.eqb (Py.to_ascii c) "+") eqn:Hplus.
    + apply long_from_string_base_no_hyphen in Hint.
      rewrite Transform_contains_hyphen in Hint.
      simpl in Hc. rewrite Hint, orb_false_r in Hc.
      rewrite <- to_ascii_hyphen in Hc.
      apply Ascii.eqb_eq in Hplus, Hc. congruence.
    + destruct (Ascii.eqb (Py.to_ascii c) "-") eqn:Hminus.
      * destruct (Py.long_from_string_base _) as [z|] eqn:Hz; [|done].
        apply long_from_string_base_no_hyphen in Hz.
        rewrite Transform_contains_hyphen in Hz.
        rewrite to_ascii_hyphen in Hminus. apply Ascii.eqb_eq in Hminus as ->.
        by exists "", t.
      * apply long_from_string_base_no_hyphen in Hint.
        change (String (Py.to_ascii c) (Py.TransformDecimalAndSpaceToASCII t))
          with (Py.TransformDecimalAndSpaceToASCII (String c t)) in Hint.
        rewrite Transform_contains_hyphen in Hint. congruence.
Qed.







End Integers.

(** ** Stripping *)

Section Stripping.

Lemma lstrip_spaces s : all_chars Py.isspace s = true -> Py.lstrip s = "".
Proof.
  induction s as [|c s IH]; simpl; [done|].
  intros [-> Hs]%andb_true_iff. auto.
Qed.

Lemma strip_spaces s : all_chars Py.isspace s = true -> Py.strip s = "".
Proof. intros H. unfold Py.strip. by rewrite lstrip_spaces. Qed.

Lemma split_spaces_commas s :
  all_chars (fun c => Ascii.eqb c "," || Py.isspace c) s = true ->
  Forall (fun part => all_chars Py.isspace part = true) (Py.split "," s).
Proof.
  induction s as [|c s IH]; simpl.
  - intros _. by constructor.
  - intros [Hc Hs]%andb_true_iff. specialize (IH Hs).
    destruct (Ascii.eqb c ",") eqn:E.
    + by constructor.
    + simpl in Hc. destruct (Py.split "," s) as [|w ws].
      { constructor; [simpl; by rewrite Hc | constructor]. }
      inversion IH; subst. constructor; [|done]. simpl. by rewrite Hc.
Qed.

Lemma tokens_spaces_commas s :
  all_chars (fun c => Ascii.eqb c "," || Py.isspace c) s = true ->
  tokens s = [].
Proof.
  intros H%split_spaces_commas. unfold tokens.
  induction H as [|part parts Hp _ IH]; [done|].
  rewrite tokens_of_cons, (strip_spaces _ Hp). done.
Qed.

End Stripping.

(** ** [parse_page_ranges] as a whole *)

Section Parser.

Implicit Types (spec t : string) (total : Z) (l : list Z).

Lemma part_values_functional ts vss vss' :
  Forall2 (fun t vs => part_values t = Returns vs) ts vss ->
  Forall2 (fun t vs => part_values t = Returns vs) ts vss' ->
  vss = vss'.
Proof.
  intros H. revert vss'.
  induction H as [|t vs ts vss Hvs _ IH]; intros vss' H'.
  - by inversion H'.
  - inversion H' as [|? vs' ? vss'' Hvs' Hrest]; subst.
    rewrite Hvs in Hvs'. injection Hvs' as <-. f_equal. by apply IH.
Qed.

Lemma parse_returns spec total l :
  parse_page_ranges spec total = Returns l <->
  exists vss,
    Forall2 (fun t vs => part_values t = Returns vs) (tokens spec) vss /\
    l = filter_pages total (concat vss) ∅ [].
Proof.
  unfold parse_page_ranges, tokens.
  destruct (parse_parts _ _) as [pages|e] eqn:Hp.
  - apply parse_parts_returns in Hp as (vss & H & ->). simpl. split.
    + intros [= <-]. eauto.
    + intros (vss' & H' & ->). by rewrite (part_values_functional _ _ _ H H').
  - split; [done|]. intros (vss & H & _).
    assert (parse_parts (Py.split "," spec) [] = Returns ([] ++ concat vss)) as Hr
      by (apply parse_parts_returns; eauto).
    congruence.
Qed.

Lemma parse_raises spec total e :
  parse_page_ranges spec total = Raises e <->
  exists pre t post,
    tokens spec = pre ++ t :: post /\ Forall returns pre /\
    part_values t = Raises e.
Proof.
  unfold parse_page_ranges, tokens. rewrite <- (parse_parts_raises _ []).
  destruct (parse_parts _ _); simpl; split; congruence.
Qed.

Lemma parse_all_return spec total :
  Forall returns (tokens spec) ->
  exists vss,
    Forall2 (fun t vs => part_values t = Returns vs) (tokens spec) vss /\
    parse_page_ranges spec total = Returns (filter_pages total (concat vss) ∅ []).
Proof.
  intros H.
  destruct (parse_parts_all_return _ [] H) as (vss & Hvss & Hp).
  exists vss. split; [done|]. unfold parse_page_ranges. by rewrite Hp.
Qed.

Lemma Forall_returns ts :
  Forall well_formed ts -> Forall fits ts -> Forall returns ts.
Proof.
  induction 1 as [|t ts Ht _ IH]; intros Hf; [done|].
  inversion Hf; subst. constructor; [by apply well_formed_fits_returns | by apply IH].
Qed.

(** In the embedding, where no list is too large for the machine, these
    two conditions are all it takes for the parser to return. *)
Lemma parse_all_well_formed spec total :
  Forall well_formed (tokens spec) -> Forall fits (tokens spec) ->
  exists vss,
    Forall2 (fun t vs => part_values t = Returns vs) (tokens spec) vss /\
    parse_page_ranges spec total = Returns (filter_pages total (concat vss) ∅ []).
Proof. intros Hwf Hfits. by apply parse_all_return, Forall_returns. Qed.

(** A [ValueError] is never raised for a token of the grammar. *)
Lemma parse_error_part spec total (e : ValueError) t :
  parse_page_ranges spec total = Raises e -> well_formed t -> error_part e <> t.
Proof.
  intros (pre & t' & post & _ & _ & Ht')%parse_raises Hwf Heq.
  apply part_values_error_part in Ht' as Hpart.
  apply value_error_not_well_formed in Ht'. congruence.
Qed.

(** On a selection of tokens of the grammar no [ValueError] is raised. *)
Lemma parse_no_value_error spec total (e : ValueError) :
  Forall well_formed (tokens spec) -> parse_page_ranges spec total <> Raises e.
Proof.
  intros Hwf (pre & t & post & Htok & _ & Ht)%parse_raises.
  apply value_error_not_well_formed in Ht. apply Ht.
  rewrite Htok in Hwf. apply Forall_app in Hwf as [_ Hwf]. by inversion Hwf.
Qed.

(** [OverflowError] comes from a range that is too long. *)
Lemma parse_overflow spec total :
  parse_page_ranges spec total = Raises OverflowError ->
  exists t, t ∈ tokens spec /\ well_formed t /\ ~ fits t.
Proof.
  intros (pre & t & post & Htok & _ & Ht)%parse_raises.
  apply overflow_iff in Ht. exists t. split; [|done].
  rewrite Htok. apply elem_of_app. right. by left.
Qed.

Lemma parse_no_overflow spec total :
  Forall fits (tokens spec) -> parse_page_ranges spec total <> Raises OverflowError.
Proof.
  intros Hfits (t & Hin & _ & Hnf)%parse_overflow.
  apply Hnf. by apply (proj1 (Forall_forall _ _) Hfits).
Qed.

(** The first token is met with nothing before it: if its range is too
    long, [OverflowError] is what the parser raises. *)
Lemma parse_first_token_overflows spec total t ts :
  tokens spec = t :: ts -> well_formed t -> ~ fits t ->
  parse_page_ranges spec total = Raises OverflowError.
Proof.
  intros Htok Hwf Hnf. apply parse_raises. exists [], t, ts.
  split; [done|]. split; [constructor|]. by apply overflow_iff.
Qed.

(** What a returned list holds: the tokens' values within the document. *)
Lemma parse_returns_elem spec total l :
  parse_page_ranges spec total = Returns l ->
  exists vss,
    Forall2 (fun t vs => part_values t = Returns vs) (tokens spec) vss /\
    forall v, v ∈ l <-> v ∈ concat vss /\ 1 <= v <= total.
Proof.
  intros (vss & Hvss & ->)%parse_returns. exists vss. split; [done|].
  intros v. rewrite filter_pages_elem. unfold in_range.
  pose proof (not_elem_of_empty (C:=gset Z) v). tauto.
Qed.


(** A token that raises makes the whole parse raise. *)
Lemma parse_raises_of_token spec total t e :
  t ∈ tokens spec -> part_values t = Raises e ->
  exists e', parse_page_ranges spec total = Raises e'.
Proof.
  intros Ht He. destruct (parse_page_ranges spec total) as [l|e'] eqn:Hp; [|eauto].
  apply parse_returns in Hp as (vss & H & _).
  apply list_elem_of_lookup in Ht as [i Hi].
  destruct (Forall2_lookup_l _ _ _ _ _ H Hi) as (vs' & _ & Hvs'). congruence.
Qed.

Lemma parse_in_range spec total l v :
  parse_page_ranges spec total = Returns l -> v ∈ l -> in_range total v.
Proof.
  intros (vss & _ & ->)%parse_returns Hv.
  apply filter_pages_elem in Hv. tauto.
Qed.

End Parser.

(** ** Properties of the parser *)

(** C3. Whenever [parse_page_ranges] returns, the list holds no value
    twice: a value already kept is skipped at every later occurrence, also
    when the occurrences come from different tokens. *)
Theorem parse_page_ranges_no_duplicates (spec : string) (total : Z) (l : list Z) :
  parse_page_ranges spec total = Returns l -> NoDup l.
Proof.
  intros (vss & _ & ->)%parse_returns. apply filter_pages_NoDup.
Qed.

Lemma parse_page_ranges_no_duplicates_witness :
  parse_page_ranges "3-5,4" 10 = Returns [3; 4; 5] /\ NoDup [3; 4; 5].
Proof.
  split; [by vm_compute|].
  apply (parse_page_ranges_no_duplicates "3-5,4" 10). by vm_compute.
Defined.

(** C4. Whenever [parse_page_ranges] returns, the result lists the
    in-range values of the working sequence - the tokens' values in the
    order of the tokens, each range expanded ascending in place - in the
    order of their first occurrences there; it is not sorted. *)
Theorem parse_page_ranges_first_occurrence_order (spec : string) (total : Z) (l : list Z) :
  parse_page_ranges spec total = Returns l ->
  exists vss,
    Forall2 (fun t vs => part_values t = Returns vs) (tokens spec) vss /\
    l = first_occurrences (filter (in_range total) (concat vss)) /\
    (forall (i j : nat) x y,
        l !! i = Some x -> l !! j = Some y -> (i < j)%nat ->
        first_before (concat vss) x y) /\
    (forall t a b start end_ vs,
        t ∈ tokens spec -> Py.split "-" t = [a; b] ->
        Py.int a = Some start -> Py.int b = Some end_ ->
        part_values t = Returns vs ->
        vs = seqZ start (end_ - start + 1)).
Proof.
  intros (vss & H & ->)%parse_returns. exists vss. split; [done|].
  split; [apply filter_pages_first_occurrences|].
  split; [apply filter_pages_order|].
  intros t a b start end_ vs _ Hs Ha Hb.
  rewrite (part_values_range _ _ _ _ _ Hs Ha Hb).
  destruct (start >? end_); [done|].
  destruct (Py.PY_SSIZE_T_MAX <? end_ - start + 1); [done|].
  intros [= <-]. unfold Py.range. f_equal. lia.
Qed.

Lemma parse_page_ranges_first_occurrence_order_witness :
  parse_page_ranges "10,1" 10 = Returns [10; 1] /\
  exists vss,
    Forall2 (fun t vs => part_values t = Returns vs) (tokens "10,1") vss /\
    [10; 1] = first_occurrences (filter (in_range 10) (concat vss)) /\
    (forall (i j : nat) x y,
        [10; 1] !! i = Some x -> [10; 1] !! j = Some y -> (i < j)%nat ->
        first_before (concat vss) x y) /\
    (forall t a b start end_ vs,
        t ∈ tokens "10,1" -> Py.split "-" t = [a; b] ->
        Py.int a = Some start -> Py.int b = Some end_ ->
        part_values t = Returns vs ->
        vs = seqZ start (end_ - start + 1)).
Proof.
  split; [by vm_compute|].
  apply (parse_page_ranges_first_occurrence_order "10,1" 10). by vm_compute.
Defined.

(** Out-of-range values, short of the case below.  When every token of the
    selection is a token of the grammar, no [ValueError] is raised, whatever
    the page count; when moreover no range has more than [PY_SSIZE_T_MAX]
    values, no [OverflowError] either; and a list that is returned holds
    exactly the tokens' values that lie in 1..total_pages: the others are
    left out without an error. *)
Lemma out_of_range_omitted_when_ranges_fit (spec : string) (total : Z) :
  Forall well_formed (tokens spec) ->
  (forall e : ValueError, parse_page_ranges spec total <> Raises e) /\
  (Forall fits (tokens spec) ->
   parse_page_ranges spec total <> Raises OverflowError) /\
  (forall l, parse_page_ranges spec total = Returns l ->
   exists vss,
     Forall2 (fun t vs => part_values t = Returns vs) (tokens spec) vss /\
     forall v, v ∈ l <-> v ∈ concat vss /\ 1 <= v <= total).
Proof.
  intros Hwf. split; [intros e; by apply parse_no_value_error|].
  split; [apply parse_no_overflow | apply parse_returns_elem].
Qed.

Example out_of_range_omitted :
  parse_page_ranges "20" 5 = Returns [] /\
  parse_page_ranges "3-20" 5 = Returns [3; 4; 5] /\
  parse_page_ranges "0-2,9,4" 5 = Returns [1; 2; 4].
Proof. by vm_compute. Qed.

(** C5 does not hold of the code.  "1-9223372036854775808" is a token of
    the grammar; of its values, 1..5 are pages of a five-page document and
    the others are to be left out, as those of "1-20" are.  The parser
    raises [OverflowError] instead: the whole range is handed to
    [pages.extend] before the filter is reached.  The orchestrator catches
    [ValueError] only, so the exception leaves [extract_pages] with the
    source still open. *)
Theorem parse_page_ranges_long_range_overflows :
  well_formed "1-9223372036854775808" /\
  tokens "1-9223372036854775808" = ["1-9223372036854775808"] /\
  Py.int "9223372036854775808" = Some 9223372036854775808 /\
  parse_page_ranges "1-20" 5 = Returns [1; 2; 3; 4; 5] /\
  parse_page_ranges "1-9223372036854775808" 5 = Raises OverflowError /\
  run env_five_pages "in.pdf" "out.pdf" "1-9223372036854775808" =
    (Raised ExnOverflowError, [EvOpen 0 (Some "in.pdf")]).
Proof.
  split; [|by vm_compute].
  right. exists "1", "9223372036854775808", 1, 9223372036854775808.
  by vm_compute.
Qed.

(** C6, as stated, fails: the token "5-3" has start > end, yet the parse of
    "a,5-3" raises the error of the token before it. *)
Lemma range_order_error_preempted :
  "5-3" ∈ tokens "a,5-3" /\
  Py.split "-" "5-3" = ["5"; "3"] /\ Py.int "5" = Some 5 /\ Py.int "3" = Some 3 /\
  5 > 3 /\
  parse_page_ranges "a,5-3" 10 = Raises (NumeroDePaginaInvalido "a").
Proof.
  split; [|by vm_compute].
  change (tokens "a,5-3") with ["a"; "5-3"]. apply list_elem_of_In. simpl. auto.
Qed.

(** C6, amended. A range token with start > end makes the parser fail,
    whatever the page count: with the range-order error naming that token,
    or with the error that a token before it raises. *)
Theorem parse_page_ranges_start_after_end
    (spec : string) (total : Z) (pre post : list string) (t a b : string)
    (start end_ : Z) :
  tokens spec = pre ++ t :: post ->
  Py.split "-" t = [a; b] -> Py.int a = Some start -> Py.int b = Some end_ ->
  start > end_ ->
  exists e,
    parse_page_ranges spec total = Raises e /\
    (e = RangoInvalidoInicioMayorFin t \/
     exists t', t' ∈ pre /\ part_values t' = Raises e).
Proof.
  intros Htok Hs Ha Hb Hgt.
  assert (part_values t = Raises (RangoInvalidoInicioMayorFin t)) as Ht.
  { rewrite (part_values_range _ _ _ _ _ Hs Ha Hb).
    destruct (Z.gtb_spec start end_); [done | lia]. }
  assert (t ∈ tokens spec) as Hin.
  { rewrite Htok. apply elem_of_app. right. by left. }
  destruct (parse_raises_of_token spec total t _ Hin Ht) as [e He].
  exists e. split; [done|].
  apply parse_raises in He as (pre' & t' & post' & Htok' & Hpre' & Ht').
  rewrite Htok in Htok'.
  destruct (Nat.lt_trichotomy (length pre') (length pre)) as [Hlt | [Heq | Hgt']].
  - right. exists t'. split; [|done].
    assert ((pre ++ t :: post) !! length pre' = Some t') as Hl
      by (rewrite Htok'; by apply list_lookup_middle).
    rewrite lookup_app_l in Hl by done. by eapply list_elem_of_lookup_2.
  - left.
    assert ((pre ++ t :: post) !! length pre = Some t') as Hl
      by (rewrite Htok'; by apply list_lookup_middle).
    rewrite list_lookup_middle in Hl by done. congruence.
  - exfalso.
    assert ((pre' ++ t' :: post') !! length pre = Some t) as Hl
      by (rewrite <- Htok'; by apply list_lookup_middle).
    rewrite lookup_app_l in Hl by done.
    apply list_elem_of_lookup_2 in Hl.
    rewrite Forall_forall in Hpre'. apply Hpre' in Hl as [vs Hvs].
    congruence.
Qed.

Lemma parse_page_ranges_start_after_end_witness :
  parse_page_ranges "5-3" 10 = Raises (RangoInvalidoInicioMayorFin "5-3") /\
  exists e,
    parse_page_ranges "1,5-3" 10 = Raises e /\
    (e = RangoInvalidoInicioMayorFin "5-3" \/
     exists t', t' ∈ ["1"] /\ part_values t' = Raises e).
Proof.
  split; [by vm_compute|].
  apply (parse_page_ranges_start_after_end "1,5-3" 10 ["1"] [] "5-3" "5" "3" 5 3);
    by vm_compute.
Defined.

(** C1, as stated, fails: "-3" denotes a negative integer, and the parse
    raises the range-format error for it. *)
Lemma negative_token_raises :
  "-3" ∈ tokens "-3" /\ Py.int "-3" = Some (-3) /\ 1 <= 10 /\
  parse_page_ranges "-3" 10 = Raises (RangoInvalido "-3").
Proof.
  split; [|by vm_compute].
  change (tokens "-3") with ["-3"]. by left.
Qed.

(** C1, amended. Let a token of the selection denote an integer v <= 0.
    Written with a hyphen (as "-3" and "-0" are) it is read as a range: the
    loop body raises the range-format error for it and the parser fails.
    Written without (as "0" and "+0" are) it raises no error, and v is not
    in the result. *)
Theorem parse_page_ranges_zero_or_negative
    (spec t : string) (total v : Z) :
  1 <= total -> t ∈ tokens spec -> Py.int t = Some v -> v <= 0 ->
  if Py.contains "-" t then
    part_values t = Raises (RangoInvalido t) /\
    exists e, parse_page_ranges spec total = Raises e
  else
    (forall e : ValueError,
        parse_page_ranges spec total = Raises e -> error_part e <> t) /\
    (forall l, parse_page_ranges spec total = Returns l -> v ∉ l).
Proof.
  intros Htotal Ht Hint Hv. destruct (Py.contains "-" t) eqn:Hc.
  - assert (part_values t = Raises (RangoInvalido t)) as Hpv.
    { destruct (int_hyphen_inv _ _ Hint Hc) as (ws & rest & -> & Hws & Hrest).
      unfold part_values. rewrite Hc.
      rewrite split_app_sep, (split_no_sep _ _ Hrest).
      - by rewrite (int_spaces _ Hws).
      - apply Transform_spaces, spaces_no_hyphen in Hws.
        by rewrite Transform_contains_hyphen in Hws. }
    split; [done|]. by apply (parse_raises_of_token spec total t (RangoInvalido t)).
  - split.
    + intros e He. apply (parse_error_part _ _ _ _ He).
      left. split; [done | eauto].
    + intros l Hl Hin. apply (parse_in_range _ _ _ _ Hl) in Hin.
      unfold in_range in Hin. lia.
Qed.

Lemma parse_page_ranges_zero_or_negative_witness :
  ((forall e : ValueError,
       parse_page_ranges "1,0" 5 = Raises e -> error_part e <> "0") /\
   (forall l, parse_page_ranges "1,0" 5 = Returns l -> 0 ∉ l)) /\
  (part_values "-0" = Raises (RangoInvalido "-0") /\
   exists e, parse_page_ranges "1,-0" 5 = Raises e) /\
  parse_page_ranges "1,0" 5 = Returns [1].
Proof.
  split; [|split]; [| |by vm_compute].
  - apply (parse_page_ranges_zero_or_negative "1,0" "0" 5 0); try by vm_compute.
    change (tokens "1,0") with ["1"; "0"]. right. by left.
  - apply (parse_page_ranges_zero_or_negative "1,-0" "-0" 5 0); try by vm_compute.
    change (tokens "1,-0") with ["1"; "-0"]. right. by left.
Defined.

(** C8. A selection that is empty, or made of white space and commas only,
    gives the empty list and no error. *)
Theorem parse_page_ranges_blank (spec : string) (total : Z) :
  1 <= total ->
  all_chars (fun c => Ascii.eqb c "," || Py.isspace c) spec = true ->
  parse_page_ranges spec total = Returns [].
Proof.
  intros _ H. apply parse_returns. exists [].
  rewrite (tokens_spaces_commas _ H). split; [constructor | done].
Qed.

Lemma parse_page_ranges_blank_witness :
  parse_page_ranges " , ,, " 3 = Returns [] /\ parse_page_ranges "" 3 = Returns [].
Proof.
  split.
  - apply (parse_page_ranges_blank " , ,, " 3); [lia | by vm_compute].
  - apply (parse_page_ranges_blank "" 3); [lia | by vm_compute].
Defined.

(** Tokens written with a plus sign, and ranges with blanks at the hyphen *)

Section SignsAndBlanks.












End SignsAndBlanks.







(** U+00A0 and U+0085 are skipped by [int] like the blank; the four
    separators U+001C..U+001F are white space for [str.strip] and not for
    [int]: next to the hyphen they make the field unreadable. *)
Example part_values_separator_at_hyphen :
  part_values (String "1" (String "160" (String "-" (String "133" "3")))) =
    Returns [1; 2; 3] /\
  Py.isspace "028" = true /\ int_space "028" = false /\
  int_whitespace "028" = false /\
  part_values (String "1" (String "028" "-3")) =
    Raises (RangoInvalido (String "1" (String "028" "-3"))).
Proof. by vm_compute. Qed.

(** ** The orchestrator *)

Section Runs.

Variable env : Fitz.Env.

Lemma insert_pdf_ok (new_doc doc : Fitz.handle) d (a b : Z) :
  Fitz.hdoc doc = Some d -> Fitz.insert_pdf_raises d a = false ->
  insert_pdf new_doc doc a b = emit (EvInsertPdf (Fitz.hid new_doc) (Fitz.hid doc) a b).
Proof. intros Hd Hok. unfold insert_pdf. by rewrite Hd, Hok. Qed.

Lemma for_each_copies (new_doc doc : Fitz.handle) d (l : list Z) (w : world) :
  Fitz.hdoc doc = Some d ->
  (forall p, Fitz.insert_pdf_raises d p = false) ->
  for_each l (fun page_num => insert_pdf new_doc doc (page_num - 1) (page_num - 1)) w =
  (Normal tt,
   {| next_handle := next_handle w;
      trace := trace w ++ copies (Fitz.hid new_doc) (Fitz.hid doc) l |}).
Proof.
  intros Hd Hok. revert w. induction l as [|p l IH]; intros w.
  - simpl. unfold ret, copies. simpl. rewrite app_nil_r. by destruct w.
  - simpl. unfold bind. rewrite (insert_pdf_ok _ _ d) by done.
    unfold emit at 1. rewrite IH. simpl. unfold copies.
    by rewrite <- app_assoc.
Qed.

Lemma opened_app tr1 tr2 : opened (tr1 ++ tr2) = opened tr1 ++ opened tr2.
Proof. apply omap_app. Qed.

Lemma closed_app tr1 tr2 : closed (tr1 ++ tr2) = closed tr1 ++ closed tr2.
Proof. apply omap_app. Qed.

Lemma opened_copies dst src l : opened (copies dst src l) = [].
Proof. induction l as [|p l IH]; [done | apply IH]. Qed.

Lemma closed_copies dst src l : closed (copies dst src l) = [].
Proof. induction l as [|p l IH]; [done | apply IH]. Qed.

(** The first three steps, shared by all runs in which the file opens
    with a page and the selection resolves to a non-empty list. *)
Lemma extract_pages_copy_phase input_pdf output_pdf page_ranges d p l :
  Fitz.open_file env input_pdf = Some d ->
  (1 <= Fitz.page_count d)%nat ->
  parse_page_ranges page_ranges (Z.of_nat (Fitz.page_count d)) = Returns (p :: l) ->
  (forall q, Fitz.insert_pdf_raises d q = false) ->
  run env input_pdf output_pdf page_ranges =
  if Fitz.save_raises env output_pdf then
    (SystemExit (ErrorAlGuardar output_pdf (ExnLibrary SaveFailed)),
     [EvOpen 0 (Some input_pdf); EvOpen 1 None] ++ copies 1 0 (p :: l) ++
     [EvClose 1; EvClose 0])
  else
    (Normal tt,
     [EvOpen 0 (Some input_pdf); EvOpen 1 None] ++ copies 1 0 (p :: l) ++
     [EvSave 1 output_pdf; EvClose 1; EvClose 0; EvPrint output_pdf]).
Proof.
  intros Hopen Hpages Hparse Hok.
  unfold run, extract_pages, bind, try_except, fitz_open. rewrite Hopen.
  unfold fresh at 1. simpl. unfold len. simpl.
  destruct (Z.eqb_spec (Z.of_nat (Fitz.page_count d)) 0) as [E|_]; [lia|].
  unfold ret at 1. unfold call_parse_page_ranges. rewrite Hparse.
  unfold ret at 1. unfold ret at 1. unfold fitz_open_new, fresh. simpl next_handle.
  simpl trace.
  rewrite (for_each_copies {| Fitz.hid := 1; Fitz.hdoc := None |}
             {| Fitz.hid := 0; Fitz.hdoc := Some d |} d (p :: l) _ eq_refl Hok).
  unfold save. destruct (Fitz.save_raises env output_pdf); simpl.
  - by rewrite <- !app_assoc.
  - by rewrite <- !app_assoc.
Qed.

Lemma run_open_fails input_pdf output_pdf page_ranges :
  Fitz.open_file env input_pdf = None ->
  run env input_pdf output_pdf page_ranges =
  (SystemExit (ErrorAlAbrir input_pdf (ExnLibrary OpenFailed)), []).
Proof.
  intros Hopen.
  unfold run, extract_pages, bind, try_except, fitz_open. by rewrite Hopen.
Qed.

Lemma run_empty_document input_pdf output_pdf page_ranges d :
  Fitz.open_file env input_pdf = Some d -> Fitz.page_count d = 0%nat ->
  run env input_pdf output_pdf page_ranges =
  (SystemExit PdfVacio, [EvOpen 0 (Some input_pdf); EvClose 0]).
Proof.
  intros Hopen Hpages.
  unfold run, extract_pages, bind, try_except, fitz_open. rewrite Hopen.
  unfold fresh at 1. simpl. unfold len. simpl. by rewrite Hpages.
Qed.

Lemma run_format_error input_pdf output_pdf page_ranges d (e : ValueError) :
  Fitz.open_file env input_pdf = Some d -> (1 <= Fitz.page_count d)%nat ->
  parse_page_ranges page_ranges (Z.of_nat (Fitz.page_count d)) = Raises e ->
  run env input_pdf output_pdf page_ranges =
  (SystemExit (ErrorFormatoRangos e), [EvOpen 0 (Some input_pdf); EvClose 0]).
Proof.
  intros Hopen Hpages Hparse.
  unfold run, extract_pages, bind, try_except, fitz_open. rewrite Hopen.
  unfold fresh at 1. simpl. unfold len. simpl.
  destruct (Z.eqb_spec (Z.of_nat (Fitz.page_count d)) 0) as [E|_]; [lia|].
  unfold ret at 1. unfold call_parse_page_ranges. by rewrite Hparse.
Qed.

(** The [OverflowError] of the parser is not a [ValueError]: it passes the
    handler and leaves [extract_pages] with the source still open. *)
Lemma run_overflow input_pdf output_pdf page_ranges d :
  Fitz.open_file env input_pdf = Some d -> (1 <= Fitz.page_count d)%nat ->
  parse_page_ranges page_ranges (Z.of_nat (Fitz.page_count d)) = Raises OverflowError ->
  run env input_pdf output_pdf page_ranges =
  (Raised ExnOverflowError, [EvOpen 0 (Some input_pdf)]).
Proof.
  intros Hopen Hpages Hparse.
  unfold run, extract_pages, bind, try_except, fitz_open. rewrite Hopen.
  unfold fresh at 1. simpl. unfold len. simpl.
  destruct (Z.eqb_spec (Z.of_nat (Fitz.page_count d)) 0) as [E|_]; [lia|].
  unfold ret at 1. unfold call_parse_page_ranges. by rewrite Hparse.
Qed.

Lemma run_empty_selection input_pdf output_pdf page_ranges d :
  Fitz.open_file env input_pdf = Some d -> (1 <= Fitz.page_count d)%nat ->
  parse_page_ranges page_ranges (Z.of_nat (Fitz.page_count d)) = Returns [] ->
  run env input_pdf output_pdf page_ranges =
  (SystemExit NoPaginasValidas, [EvOpen 0 (Some input_pdf); EvClose 0]).
Proof.
  intros Hopen Hpages Hparse.
  unfold run, extract_pages, bind, try_except, fitz_open. rewrite Hopen.
  unfold fresh at 1. simpl. unfold len. simpl.
  destruct (Z.eqb_spec (Z.of_nat (Fitz.page_count d)) 0) as [E|_]; [lia|].
  unfold ret at 1. unfold call_parse_page_ranges. by rewrite Hparse.
Qed.

Lemma closed_exactly_once_copy_phase input_pdf l tail :
  opened tail = [] -> closed tail = [1%nat; 0%nat] ->
  closed_exactly_once
    ([EvOpen 0 (Some input_pdf); EvOpen 1 None] ++ copies 1 0 l ++ tail).
Proof.
  intros Ho Hc. unfold closed_exactly_once, closes.
  rewrite !opened_app, !closed_app, opened_copies, closed_copies, Ho, Hc.
  simpl. by repeat constructor.
Qed.

(** When no page copy raises and the parser does not raise
    [OverflowError], every run ends by [sys.exit] or by returning, and each
    handle opened on the way is closed exactly once. *)
Lemma run_closes_when_copies_succeed input_pdf output_pdf page_ranges :
  (forall d q, Fitz.open_file env input_pdf = Some d ->
               Fitz.insert_pdf_raises d q = false) ->
  (forall d, Fitz.open_file env input_pdf = Some d ->
             parse_page_ranges page_ranges (Z.of_nat (Fitz.page_count d)) <>
               Raises OverflowError) ->
  closed_exactly_once (run env input_pdf output_pdf page_ranges).2 /\
  forall e, (run env input_pdf output_pdf page_ranges).1 <> Raised e.
Proof.
  intros Hok Hno.
  destruct (Fitz.open_file env input_pdf) as [d|] eqn:Hopen.
  2: { rewrite run_open_fails by done. split; [constructor | done]. }
  destruct (Nat.eq_dec (Fitz.page_count d) 0%nat) as [Hz|Hnz].
  { rewrite (run_empty_document _ _ _ d) by done.
    split; [by repeat constructor | done]. }
  assert (1 <= Fitz.page_count d)%nat as Hpages by lia.
  destruct (parse_page_ranges page_ranges (Z.of_nat (Fitz.page_count d)))
    as [[|p l]|[e|]] eqn:Hparse; [| | |by destruct (Hno d eq_refl)].
  - rewrite (run_empty_selection _ _ _ d) by done.
    split; [by repeat constructor | done].
  - rewrite (extract_pages_copy_phase _ _ _ d p l) by eauto.
    destruct (Fitz.save_raises env output_pdf).
    + split; [|done].
      by apply (closed_exactly_once_copy_phase input_pdf (p :: l)
                  [EvClose 1; EvClose 0]).
    + split; [|done].
      by apply (closed_exactly_once_copy_phase input_pdf (p :: l)
                  [EvSave 1 output_pdf; EvClose 1; EvClose 0; EvPrint output_pdf]).
  - rewrite (run_format_error _ _ _ d e) by done.
    split; [by repeat constructor | done].
Qed.

End Runs.

(** C7. When the file opens with at least one page and the selection
    resolves to the empty list, the run ends in [sys.exit] with the
    no-valid-pages message, hence with a non-zero status; by then the source
    handle has been closed, and no output document was ever created: the
    trace holds the opening of the source and its closing, nothing else. *)
Theorem extract_pages_no_pages_selected
    (env : Fitz.Env) (input_pdf output_pdf page_ranges : string) (d : Fitz.Document) :
  Fitz.open_file env input_pdf = Some d -> (1 <= Fitz.page_count d)%nat ->
  parse_page_ranges page_ranges (Z.of_nat (Fitz.page_count d)) = Returns [] ->
  let '(o, tr) := run env input_pdf output_pdf page_ranges in
  o = SystemExit NoPaginasValidas /\ exit_status o <> 0 /\
  tr = [EvOpen 0 (Some input_pdf); EvClose 0] /\
  opened tr = [0%nat] /\ closes 0 tr = 1%nat.
Proof.
  intros Hopen Hpages Hparse.
  rewrite (run_empty_selection env _ _ _ d Hopen Hpages Hparse).
  by repeat split.
Qed.

Lemma extract_pages_no_pages_selected_witness :
  run env_five_pages "in.pdf" "out.pdf" "20" =
    (SystemExit NoPaginasValidas, [EvOpen 0 (Some "in.pdf"); EvClose 0]) /\
  let '(o, tr) := run env_five_pages "in.pdf" "out.pdf" "20" in
  o = SystemExit NoPaginasValidas /\ exit_status o <> 0 /\
  tr = [EvOpen 0 (Some "in.pdf"); EvClose 0] /\
  opened tr = [0%nat] /\ closes 0 tr = 1%nat.
Proof.
  split; [by vm_compute|].
  apply (extract_pages_no_pages_selected env_five_pages "in.pdf" "out.pdf" "20" five_pages);
    [done | simpl; lia | by vm_compute].
Defined.

(** C2 does not hold of the code. A file that opens with one page which
    cannot be copied: [insert_pdf] raises, nothing catches the exception,
    and the run ends with both handles opened and neither closed. *)
Theorem extract_pages_copy_failure_leaves_handles_open :
  run env_uncopyable "in.pdf" "out.pdf" "1" =
    (Raised (ExnLibrary InsertFailed), [EvOpen 0 (Some "in.pdf"); EvOpen 1 None]) /\
  opened [EvOpen 0 (Some "in.pdf"); EvOpen 1 None] = [0%nat; 1%nat] /\
  closes 0 [EvOpen 0 (Some "in.pdf"); EvOpen 1 None] = 0%nat /\
  closes 1 [EvOpen 0 (Some "in.pdf"); EvOpen 1 None] = 0%nat /\
  ~ closed_exactly_once (run env_uncopyable "in.pdf" "out.pdf" "1").2.
Proof.
  assert (run env_uncopyable "in.pdf" "out.pdf" "1" =
    (Raised (ExnLibrary InsertFailed), [EvOpen 0 (Some "in.pdf"); EvOpen 1 None]))
    as Hrun by (by vm_compute).
  split; [done|]. rewrite Hrun. repeat split.
  intros H. inversion H as [|? ? Hc _]. discriminate Hc.
Qed.

(** * Further properties of the parser *)

Section FirstOccurrences.

Implicit Types (l k : list Z).

Lemma elem_of_first_occurrences l y : y ∈ first_occurrences l <-> y ∈ l.
Proof.
  induction l as [|x l IH]; simpl; [done|].
  rewrite !elem_of_cons, list_elem_of_filter, IH.
  destruct (decide (y = x)); tauto.
Qed.

Lemma first_occurrences_filter (P : Z -> Prop) `{!forall x, Decision (P x)} l :
  first_occurrences (filter P l) = filter P (first_occurrences l).
Proof.
  induction l as [|x l IH]; [done|].
  rewrite filter_cons. simpl first_occurrences at 2. rewrite filter_cons.
  destruct (decide (P x)) as [Hx|Hx].
  - simpl. f_equal. rewrite IH, !list_filter_filter.
    apply list_filter_iff. tauto.
  - rewrite IH, list_filter_filter. apply list_filter_iff.
    intros y. split; [|tauto]. intros Hy. split; [done|]. by intros ->.
Qed.

Lemma first_occurrences_app l k :
  first_occurrences (l ++ k) =
  first_occurrences l ++ filter (fun y => y ∉ l) (first_occurrences k).
Proof.
  induction l as [|x l IH]; simpl.
  - symmetry. induction (first_occurrences k) as [|y r IHr]; [done|].
    rewrite filter_cons, decide_True by apply not_elem_of_nil. by rewrite IHr.
  - f_equal. rewrite IH, filter_app. f_equal.
    rewrite list_filter_filter. apply list_filter_iff. intros y.
    rewrite not_elem_of_cons. tauto.
Qed.

Lemma first_occurrences_NoDup l : NoDup l -> first_occurrences l = l.
Proof.
  induction 1 as [|x l Hx _ IH]; simpl; [done|]. rewrite IH. f_equal.
  clear IH. induction l as [|y l IHl]; [done|].
  apply not_elem_of_cons in Hx as [Hne Hx].
  rewrite filter_cons, decide_True by done. f_equal. by apply IHl.
Qed.

Lemma filter_in_range_seqZ total (len : nat) start :
  filter (in_range total) (seqZ start (Z.of_nat len)) =
  seqZ (Z.max 1 start)
       (Z.min total (start + Z.of_nat len - 1) - Z.max 1 start + 1).
Proof.
  revert start. induction len as [|len IH]; intros start.
  - rewrite (seqZ_nil start) by lia. rewrite seqZ_nil by lia. done.
  - rewrite (seqZ_cons start) by lia.
    replace (Z.pred (Z.of_nat (S len))) with (Z.of_nat len) by lia.
    rewrite filter_cons, IH. unfold in_range.
    destruct (decide (1 <= start <= total)) as [Hin|Hout].
    + rewrite (seqZ_cons (Z.max 1 start)) by lia.
      replace (Z.max 1 start) with start by lia. f_equal. f_equal; lia.
    + destruct (Z.lt_ge_cases start 1).
      * f_equal; lia.
      * rewrite !seqZ_nil by lia. done.
Qed.

End FirstOccurrences.

Section Commas.

Lemma split_app sep s1 s2 :
  Py.split sep (s1 +:+ String sep s2) = Py.split sep s1 ++ Py.split sep s2.
Proof.
  induction s1 as [|c s1 IH].
  - simpl. by rewrite Ascii.eqb_refl.
  - change (String c s1 +:+ String sep s2) with (String c (s1 +:+ String sep s2)).
    simpl. rewrite IH. destruct (Ascii.eqb c sep); [done|].
    pose proof (split_not_nil sep s1). by destruct (Py.split sep s1).
Qed.

Lemma tokens_of_app parts1 parts2 :
  tokens_of (parts1 ++ parts2) = tokens_of parts1 ++ tokens_of parts2.
Proof. unfold tokens_of. by rewrite fmap_app, filter_app. Qed.

Lemma tokens_comma s1 s2 : tokens (s1 +:+ String "," s2) = tokens s1 ++ tokens s2.
Proof. unfold tokens. by rewrite split_app, tokens_of_app. Qed.

Lemma all_return ts vss :
  Forall2 (fun t vs => part_values t = Returns vs) ts vss -> Forall returns ts.
Proof.
  induction 1 as [|t vs ts vss Hvs _ IH]; constructor; [by exists vs | done].
Qed.

Lemma returns_all_well_formed ts :
  Forall returns ts -> Forall well_formed ts /\ Forall fits ts.
Proof.
  induction 1 as [|t ts Ht _ [IH1 IH2]]; [done|].
  apply returns_well_formed in Ht as [? ?]. split; by constructor.
Qed.

End Commas.

(** X1. Whenever the parser returns, every page of the result is a page of
    the document: between 1 and [total_pages]; in particular the result is
    empty when [total_pages] is below 1. *)
Theorem parse_page_ranges_pages_of_document (spec : string) (total : Z) (l : list Z) :
  parse_page_ranges spec total = Returns l ->
  Forall (fun p => 1 <= p <= total) l /\ (total < 1 -> l = []).
Proof.
  intros Hp.
  assert (Forall (fun p => 1 <= p <= total) l) as Hall.
  { apply Forall_forall. intros p Hin. apply (parse_in_range _ _ _ _ Hp Hin). }
  split; [done|]. intros Hlt. destruct l as [|p l]; [done|].
  inversion Hall; subst. lia.
Qed.

Lemma parse_page_ranges_pages_of_document_witness :
  parse_page_ranges "0-7,9" 5 = Returns [1; 2; 3; 4; 5] /\
  Forall (fun p => 1 <= p <= 5) [1; 2; 3; 4; 5] /\ (5 < 1 -> [1; 2; 3; 4; 5] = []).
Proof.
  split; [by vm_compute|].
  apply (parse_page_ranges_pages_of_document "0-7,9" 5). by vm_compute.
Defined.

(** X2. The result never has more entries than the document has pages. *)
Theorem parse_page_ranges_length_bound (spec : string) (total : Z) (l : list Z) :
  parse_page_ranges spec total = Returns l ->
  Z.of_nat (length l) <= Z.max 0 total.
Proof.
  intros Hp.
  assert (l ⊆+ seqZ 1 total) as Hsub.
  { apply NoDup_submseteq.
    - apply parse_returns in Hp as (vss & _ & ->). apply filter_pages_NoDup.
    - intros p Hin. apply (parse_in_range _ _ _ _ Hp) in Hin.
      unfold in_range in Hin. apply elem_of_seqZ. lia. }
  apply submseteq_length in Hsub. rewrite length_seqZ in Hsub. lia.
Qed.

Lemma parse_page_ranges_length_bound_witness :
  parse_page_ranges "1-9,2-4,1" 3 = Returns [1; 2; 3] /\
  Z.of_nat (length [1; 2; 3]) <= Z.max 0 3.
Proof.
  split; [by vm_compute|].
  apply (parse_page_ranges_length_bound "1-9,2-4,1" 3). by vm_compute.
Defined.

(** X3. Whether the parser raises, and which error, does not depend on the
    page count: the format of the selection is judged alone. *)
Theorem parse_page_ranges_error_independent_of_total
    (spec : string) (total total' : Z) (e : ValueError) :
  parse_page_ranges spec total = Raises e <->
  parse_page_ranges spec total' = Raises e.
Proof. by rewrite !parse_raises. Qed.

(** X4. Parsing against a shorter document gives the result for the longer
    one with the pages beyond the shorter one left out, order kept. *)
Theorem parse_page_ranges_shorter_document
    (spec : string) (total total' : Z) (l : list Z) :
  total' <= total ->
  parse_page_ranges spec total = Returns l ->
  parse_page_ranges spec total' = Returns (filter (fun p => p <= total') l).
Proof.
  intros Hle (vss & Hvss & ->)%parse_returns.
  apply parse_returns. exists vss. split; [done|].
  rewrite !filter_pages_first_occurrences.
  rewrite <- first_occurrences_filter, list_filter_filter. f_equal.
  apply list_filter_iff. intros p. unfold in_range. lia.
Qed.

Lemma parse_page_ranges_shorter_document_witness :
  parse_page_ranges "7,2-4,1" 3 = Returns (filter (fun p => p <= 3) [7; 2; 3; 4; 1]).
Proof.
  apply (parse_page_ranges_shorter_document "7,2-4,1" 10 3); [lia | by vm_compute].
Defined.

(** X5. When the parser raises, the error names the first token, from the
    left, that is not a token of the grammar: all tokens before it are. *)
Theorem parse_page_ranges_first_offender (spec : string) (total : Z) (e : ValueError) :
  parse_page_ranges spec total = Raises e ->
  exists pre post,
    tokens spec = pre ++ error_part e :: post /\
    Forall well_formed pre /\ ~ well_formed (error_part e).
Proof.
  intros (pre & t & post & Htok & Hpre & Ht)%parse_raises.
  rewrite (part_values_error_part _ _ Ht).
  exists pre, post. split; [done|].
  split; [by apply returns_all_well_formed | by eapply value_error_not_well_formed].
Qed.

Lemma parse_page_ranges_first_offender_witness :
  parse_page_ranges "1, 2-x ,y" 9 = Raises (RangoInvalido "2-x") /\
  exists pre post,
    tokens "1, 2-x ,y" = pre ++ "2-x" :: post /\
    Forall well_formed pre /\ ~ well_formed "2-x".
Proof.
  split; [by vm_compute|].
  apply (parse_page_ranges_first_offender "1, 2-x ,y" 9 (RangoInvalido "2-x")).
  by vm_compute.
Defined.

(** X6. The parser returns only on selections all of whose tokens are
    tokens of the grammar - an integer without hyphen, or two integer
    fields around one hyphen with start <= end - with no range of more
    than [PY_SSIZE_T_MAX] values.  On a selection of tokens of the grammar
    it raises no [ValueError]; on one without a range of more than
    [PY_SSIZE_T_MAX] values it raises no [OverflowError]. *)
Theorem parse_page_ranges_accepts_the_grammar (spec : string) (total : Z) :
  ((exists l, parse_page_ranges spec total = Returns l) ->
   Forall well_formed (tokens spec) /\ Forall fits (tokens spec)) /\
  (Forall well_formed (tokens spec) ->
   forall e : ValueError, parse_page_ranges spec total <> Raises e) /\
  (Forall fits (tokens spec) ->
   parse_page_ranges spec total <> Raises OverflowError).
Proof.
  split; [|split].
  - intros [l (vss & Hvss & _)%parse_returns].
    by eapply returns_all_well_formed, all_return.
  - intros Hwf e. by apply parse_no_value_error.
  - apply parse_no_overflow.
Qed.

(** X7. Two selections joined by a comma parse to the first result followed
    by what the second adds to it; an error of the first part wins over one
    of the second. *)
Theorem parse_page_ranges_comma (s1 s2 : string) (total : Z) :
  parse_page_ranges (s1 +:+ String "," s2) total =
  match parse_page_ranges s1 total, parse_page_ranges s2 total with
  | Raises e, _ => Raises e
  | Returns _, Raises e => Raises e
  | Returns l1, Returns l2 => Returns (l1 ++ filter (fun p => p ∉ l1) l2)
  end.
Proof.
  destruct (parse_page_ranges s1 total) as [l1|e1] eqn:H1.
  - apply parse_returns in H1 as (vss1 & Hv1 & ->).
    destruct (parse_page_ranges s2 total) as [l2|e2] eqn:H2.
    + apply parse_returns in H2 as (vss2 & Hv2 & ->).
      apply parse_returns. exists (vss1 ++ vss2). rewrite tokens_comma.
      split; [by apply Forall2_app|].
      rewrite !filter_pages_first_occurrences, concat_app, filter_app.
      rewrite first_occurrences_app. f_equal.
      apply list_filter_iff. intros p. by rewrite elem_of_first_occurrences.
    + apply parse_raises in H2 as (pre & t & post & Htok & Hpre & Ht).
      apply parse_raises. exists (tokens s1 ++ pre), t, post.
      rewrite tokens_comma, Htok, <- app_assoc. split; [done|]. split; [|done].
      apply Forall_app. split; [|done]. by eapply all_return.
  - apply parse_raises in H1 as (pre & t & post & Htok & Hpre & Ht).
    apply parse_raises. exists pre, t, (post ++ tokens s2).
    rewrite tokens_comma, Htok, <- app_assoc. done.
Qed.

(** X8. A selection made of one range token start-end with start <= end
    raises no [ValueError]; it raises [OverflowError] exactly when the
    range has more than [PY_SSIZE_T_MAX] values; and the list it returns
    holds the pages of the range that the document has, ascending:
    max(1,start) .. min(total,end). *)
Theorem parse_page_ranges_range_clipped
    (spec t a b : string) (start end_ total : Z) :
  tokens spec = [t] -> Py.split "-" t = [a; b] ->
  Py.int a = Some start -> Py.int b = Some end_ -> start <= end_ ->
  (forall e : ValueError, parse_page_ranges spec total <> Raises e) /\
  (parse_page_ranges spec total = Raises OverflowError <->
   Py.PY_SSIZE_T_MAX < end_ - start + 1) /\
  (forall l, parse_page_ranges spec total = Returns l ->
   l = seqZ (Z.max 1 start) (Z.min total end_ - Z.max 1 start + 1)).
Proof.
  intros Htok Hs Ha Hb Hle.
  assert (parse_page_ranges spec total =
          if Py.PY_SSIZE_T_MAX <? end_ - start + 1 then Raises OverflowError
          else Returns (seqZ (Z.max 1 start) (Z.min total end_ - Z.max 1 start + 1)))
    as ->.
  { destruct (Z.ltb_spec Py.PY_SSIZE_T_MAX (end_ - start + 1)) as [Hlong|Hfit].
    - apply parse_raises. exists [], t, []. rewrite Htok.
      split; [done|]. split; [constructor|].
      rewrite (part_values_range _ _ _ _ _ Hs Ha Hb).
      destruct (Z.gtb_spec start end_); [lia|].
      by destruct (Z.ltb_spec Py.PY_SSIZE_T_MAX (end_ - start + 1)); [|lia].
    - apply parse_returns.
      exists [seqZ start (end_ + 1 - start)]. rewrite Htok. split.
      + repeat constructor. rewrite (part_values_range _ _ _ _ _ Hs Ha Hb).
        destruct (Z.gtb_spec start end_); [lia|].
        by destruct (Z.ltb_spec Py.PY_SSIZE_T_MAX (end_ - start + 1)); [lia|].
      + simpl. rewrite app_nil_r, filter_pages_first_occurrences.
        rewrite first_occurrences_NoDup by apply NoDup_filter, NoDup_seqZ.
        replace (end_ + 1 - start) with (Z.of_nat (Z.to_nat (end_ + 1 - start))) by lia.
        rewrite filter_in_range_seqZ. f_equal. lia. }
  destruct (Z.ltb_spec Py.PY_SSIZE_T_MAX (end_ - start + 1)) as [Hlong|Hfit].
  - split; [done|]. split; [done|]. done.
  - split; [done|]. split; [split; [done | lia]|]. by intros l [= <-].
Qed.

Lemma parse_page_ranges_range_clipped_witness :
  parse_page_ranges " 0-7 ," 5 = Returns [1; 2; 3; 4; 5] /\
  (forall e : ValueError, parse_page_ranges " 0-7 ," 5 <> Raises e) /\
  (parse_page_ranges " 0-7 ," 5 = Raises OverflowError <->
   Py.PY_SSIZE_T_MAX < 7 - 0 + 1) /\
  (forall l, parse_page_ranges " 0-7 ," 5 = Returns l ->
   l = seqZ (Z.max 1 0) (Z.min 5 7 - Z.max 1 0 + 1)).
Proof.
  split; [by vm_compute|].
  apply (parse_page_ranges_range_clipped " 0-7 ," "0-7" "0" "7" 0 7 5); by vm_compute.
Defined.

(** * Further properties of the orchestrator *)

Section AllRuns.

Variable env : Fitz.Env.

Lemma copied_prefix d l : (copied d l).1 `prefix_of` l.
Proof.
  induction l as [|p l IH]; simpl; [done|].
  destruct (Fitz.insert_pdf_raises d (p - 1)); [apply prefix_nil|].
  destruct (copied d l) as [before raised]. by apply prefix_cons.
Qed.

Lemma copied_all d l :
  (forall p, p ∈ l -> Fitz.insert_pdf_raises d (p - 1) = false) ->
  copied d l = (l, false).
Proof.
  induction l as [|p l IH]; intros Hok; simpl; [done|].
  rewrite (Hok p) by by left. rewrite IH; [done|].
  intros q Hq. apply Hok. by right.
Qed.

Lemma copied_not_raised d l : (copied d l).2 = false -> (copied d l).1 = l.
Proof.
  induction l as [|p l IH]; simpl; [done|].
  destruct (Fitz.insert_pdf_raises d (p - 1)); [done|].
  destruct (copied d l) as [before raised]. simpl in *. intros H. by rewrite IH.
Qed.

Lemma copied_raised d l :
  (copied d l).2 = true ->
  exists p post,
    l = (copied d l).1 ++ p :: post /\ Fitz.insert_pdf_raises d (p - 1) = true.
Proof.
  induction l as [|p l IH]; simpl; [done|].
  destruct (Fitz.insert_pdf_raises d (p - 1)) eqn:Hp; [by exists p, l|].
  destruct (copied d l) as [before raised]. simpl in *. intros H.
  destruct (IH H) as (q & post & -> & Hq). by exists q, post.
Qed.

Lemma for_each_copied (new_doc doc : Fitz.handle) d (l : list Z) (w : world) :
  Fitz.hdoc doc = Some d ->
  for_each l (fun page_num => insert_pdf new_doc doc (page_num - 1) (page_num - 1)) w =
  ((if (copied d l).2 then Raised (ExnLibrary InsertFailed) else Normal tt),
   {| next_handle := next_handle w;
      trace := trace w ++ copies (Fitz.hid new_doc) (Fitz.hid doc) (copied d l).1 |}).
Proof.
  intros Hd. revert w. induction l as [|p l IH]; intros w.
  - simpl. unfold ret, copies. simpl. rewrite app_nil_r. by destruct w.
  - simpl. unfold bind.
    destruct (Fitz.insert_pdf_raises d (p - 1)) eqn:Hp.
    + unfold insert_pdf. rewrite Hd, Hp. unfold raise, copies. simpl.
      rewrite app_nil_r. by destruct w.
    + rewrite (insert_pdf_ok _ _ d) by done. unfold emit at 1. rewrite IH.
      destruct (copied d l) as [before raised]. simpl. unfold copies.
      by rewrite <- app_assoc.
Qed.

(** Every run, by cases on what the environment and the parser answer. *)
Lemma run_unfold input_pdf output_pdf page_ranges :
  run env input_pdf output_pdf page_ranges =
  match Fitz.open_file env input_pdf with
  | None => (SystemExit (ErrorAlAbrir input_pdf (ExnLibrary OpenFailed)), [])
  | Some d =>
      if Nat.eqb (Fitz.page_count d) 0
      then (SystemExit PdfVacio, [EvOpen 0 (Some input_pdf); EvClose 0])
      else
        match parse_page_ranges page_ranges (Z.of_nat (Fitz.page_count d)) with
        | Raises (ExcValueError e) =>
            (SystemExit (ErrorFormatoRangos e), [EvOpen 0 (Some input_pdf); EvClose 0])
        | Raises OverflowError =>
            (Raised ExnOverflowError, [EvOpen 0 (Some input_pdf)])
        | Returns [] =>
            (SystemExit NoPaginasValidas, [EvOpen 0 (Some input_pdf); EvClose 0])
        | Returns (p :: l) =>
            if (copied d (p :: l)).2 then
              (Raised (ExnLibrary InsertFailed),
               [EvOpen 0 (Some input_pdf); EvOpen 1 None] ++
               copies 1 0 (copied d (p :: l)).1)
            else if Fitz.save_raises env output_pdf then
              (SystemExit (ErrorAlGuardar output_pdf (ExnLibrary SaveFailed)),
               [EvOpen 0 (Some input_pdf); EvOpen 1 None] ++ copies 1 0 (p :: l) ++
               [EvClose 1; EvClose 0])
            else
              (Normal tt,
               [EvOpen 0 (Some input_pdf); EvOpen 1 None] ++ copies 1 0 (p :: l) ++
               [EvSave 1 output_pdf; EvClose 1; EvClose 0; EvPrint output_pdf])
        end
  end.
Proof.
  destruct (Fitz.open_file env input_pdf) as [d|] eqn:Hopen.
  2: { by apply run_open_fails. }
  destruct (Nat.eqb_spec (Fitz.page_count d) 0) as [Hz|Hnz].
  { by apply (run_empty_document env _ _ _ d). }
  assert (1 <= Fitz.page_count d)%nat as Hpages by lia.
  destruct (parse_page_ranges page_ranges (Z.of_nat (Fitz.page_count d)))
    as [[|p l]|[e|]] eqn:Hparse.
  - by apply (run_empty_selection env _ _ _ d).
  - destruct (copied d (p :: l)).2 eqn:Hraised.
    + unfold run, extract_pages, bind, try_except, fitz_open. rewrite Hopen.
      unfold fresh at 1. simpl. unfold len. simpl.
      destruct (Z.eqb_spec (Z.of_nat (Fitz.page_count d)) 0) as [E|_]; [lia|].
      unfold ret at 1. unfold call_parse_page_ranges. rewrite Hparse.
      unfold ret at 1. unfold ret at 1. unfold fitz_open_new, fresh.
      simpl next_handle. simpl trace.
      rewrite (for_each_copied {| Fitz.hid := 1; Fitz.hdoc := None |}
                 {| Fitz.hid := 0; Fitz.hdoc := Some d |} d (p :: l) _ eq_refl).
      rewrite Hraised. simpl. by rewrite <- ?app_assoc.
    + unfold run, extract_pages, bind, try_except, fitz_open. rewrite Hopen.
      unfold fresh at 1. simpl. unfold len. simpl.
      destruct (Z.eqb_spec (Z.of_nat (Fitz.page_count d)) 0) as [E|_]; [lia|].
      unfold ret at 1. unfold call_parse_page_ranges. rewrite Hparse.
      unfold ret at 1. unfold ret at 1. unfold fitz_open_new, fresh.
      simpl next_handle. simpl trace.
      rewrite (for_each_copied {| Fitz.hid := 1; Fitz.hdoc := None |}
                 {| Fitz.hid := 0; Fitz.hdoc := Some d |} d (p :: l) _ eq_refl).
      rewrite Hraised, (copied_not_raised _ _ Hraised).
      unfold save. destruct (Fitz.save_raises env output_pdf); simpl;
        by rewrite <- !app_assoc.
  - by apply (run_format_error env _ _ _ d).
  - by apply (run_overflow env _ _ _ d).
Qed.

End AllRuns.

Section TraceFacts.

Lemma elem_of_copies ev dst src l :
  ev ∈ copies dst src l <-> exists p, p ∈ l /\ ev = EvInsertPdf dst src (p - 1) (p - 1).
Proof.
  unfold copies. rewrite list_elem_of_fmap. split.
  - intros (p & -> & Hp). eauto.
  - intros (p & Hp & ->). eauto.
Qed.

Lemma copied_elem_of d l p : p ∈ (copied d l).1 -> p ∈ l.
Proof.
  intros Hp. destruct (copied_prefix d l) as [k Hk]. rewrite Hk.
  apply elem_of_app. by left.
Qed.

Lemma copied_stop d before p post :
  (forall q, q ∈ before -> Fitz.insert_pdf_raises d (q - 1) = false) ->
  Fitz.insert_pdf_raises d (p - 1) = true ->
  copied d (before ++ p :: post) = (before, true).
Proof.
  intros Hok Hp. induction before as [|q before IH]; simpl.
  - by rewrite Hp.
  - rewrite (Hok q) by by left. rewrite IH; [done|].
    intros r Hr. apply Hok. by right.
Qed.

Lemma nonempty_selection_has_pages spec d p l :
  parse_page_ranges spec (Z.of_nat (Fitz.page_count d)) = Returns (p :: l) ->
  Nat.eqb (Fitz.page_count d) 0 = false.
Proof.
  intros Hp. apply Nat.eqb_neq. intros Hz.
  assert (in_range (Z.of_nat (Fitz.page_count d)) p) as Hr
    by (apply (parse_in_range _ _ _ _ Hp); by left).
  unfold in_range in Hr. lia.
Qed.

End TraceFacts.

(** X9. When the file opens, the selection resolves to a non-empty list,
    no copy raises and the save succeeds, the run returns normally and its
    trace is: source opened, output created, one single-page copy per
    selected page in the order of the list (0-based index page - 1), one
    save to [output_pdf], output closed, source closed, confirmation
    printed. *)
Theorem extract_pages_success
    (env : Fitz.Env) (input_pdf output_pdf page_ranges : string)
    (d : Fitz.Document) (l : list Z) :
  Fitz.open_file env input_pdf = Some d ->
  parse_page_ranges page_ranges (Z.of_nat (Fitz.page_count d)) = Returns l ->
  l <> [] ->
  (forall p, p ∈ l -> Fitz.insert_pdf_raises d (p - 1) = false) ->
  Fitz.save_raises env output_pdf = false ->
  run env input_pdf output_pdf page_ranges =
  (Normal tt,
   [EvOpen 0 (Some input_pdf); EvOpen 1 None] ++ copies 1 0 l ++
   [EvSave 1 output_pdf; EvClose 1; EvClose 0; EvPrint output_pdf]).
Proof.
  intros Hopen Hparse Hne Hok Hsave. destruct l as [|p l]; [done|].
  rewrite run_unfold, Hopen, (nonempty_selection_has_pages _ _ _ _ Hparse), Hparse.
  by rewrite (copied_all _ _ Hok), Hsave.
Qed.

Lemma extract_pages_success_witness :
  run env_files "five.pdf" "out.pdf" "5,1-2" =
  (Normal tt,
   [EvOpen 0 (Some "five.pdf"); EvOpen 1 None] ++ copies 1 0 [5; 1; 2] ++
   [EvSave 1 "out.pdf"; EvClose 1; EvClose 0; EvPrint "out.pdf"]).
Proof.
  apply (extract_pages_success env_files "five.pdf" "out.pdf" "5,1-2"
           {| Fitz.page_count := 5; Fitz.insert_pdf_raises := fun _ => false |});
    by vm_compute.
Defined.

(** X10. In every run, each copy request is a single-page copy from the
    source into the output whose 0-based page number lies within the source
    document and is a selected page minus one. *)
Theorem extract_pages_copies_within_source
    (env : Fitz.Env) (input_pdf output_pdf page_ranges : string)
    (dst src : nat) (a b : Z) :
  EvInsertPdf dst src a b ∈ (run env input_pdf output_pdf page_ranges).2 ->
  exists d l,
    Fitz.open_file env input_pdf = Some d /\
    parse_page_ranges page_ranges (Z.of_nat (Fitz.page_count d)) = Returns l /\
    dst = 1%nat /\ src = 0%nat /\ a = b /\ a + 1 ∈ l /\
    0 <= a < Z.of_nat (Fitz.page_count d).
Proof.
  rewrite run_unfold.
  destruct (Fitz.open_file env input_pdf) as [d|] eqn:Hopen.
  2: { simpl. by intros ?%elem_of_nil. }
  assert (forall ev, ev ∈ [EvOpen 0 (Some input_pdf); EvClose 0] ->
            ev <> EvInsertPdf dst src a b) as Hshort.
  { intros ev Hev ->. repeat (apply elem_of_cons in Hev as [Hev|Hev]; [done|]).
    by apply elem_of_nil in Hev. }
  destruct (Nat.eqb (Fitz.page_count d) 0).
  { simpl. intros Hin. by destruct (Hshort _ Hin). }
  destruct (parse_page_ranges page_ranges (Z.of_nat (Fitz.page_count d)))
    as [[|p l]|[e|]] eqn:Hparse;
    try (simpl; intros Hin; by destruct (Hshort _ Hin)).
  2: { simpl. intros Hin. apply elem_of_cons in Hin as [Hin|Hin]; [done|].
       by apply elem_of_nil in Hin. }
  lazymatch goal with
  | |- _ -> ?G =>
      assert (forall c, (forall q, q ∈ c -> q ∈ p :: l) ->
                EvInsertPdf dst src a b ∈ copies 1 0 c -> G) as Hcopy
  end.
  { intros c Hc (q & Hq & [= -> -> -> ->])%elem_of_copies.
    exists d, (p :: l). apply Hc in Hq.
    pose proof (parse_in_range _ _ _ _ Hparse Hq) as Hr. unfold in_range in Hr.
    replace (q - 1 + 1) with q by lia. repeat split; [done..|lia|lia]. }
  pose proof (fun q => copied_elem_of d (p :: l) q) as Hsub.
  destruct (copied d (p :: l)) as [c r]. simpl in Hsub.
  assert (forall tail, (forall ev, ev ∈ tail -> ev <> EvInsertPdf dst src a b) ->
            forall c', (forall q, q ∈ c' -> q ∈ p :: l) ->
            EvInsertPdf dst src a b ∈
              [EvOpen 0 (Some input_pdf); EvOpen 1 None] ++ copies 1 0 c' ++ tail ->
            EvInsertPdf dst src a b ∈ copies 1 0 c') as Hmid.
  { intros tail Htail c' _ Hin.
    apply elem_of_app in Hin as [Hin|Hin].
    - repeat (apply elem_of_cons in Hin as [Hin|Hin]; [done|]).
      by apply elem_of_nil in Hin.
    - apply elem_of_app in Hin as [Hin|Hin]; [done|]. by destruct (Htail _ Hin). }
  assert (forall tail : list event, Forall (fun ev => ev <> EvInsertPdf dst src a b) tail ->
            forall ev, ev ∈ tail -> ev <> EvInsertPdf dst src a b) as Htails
    by (intros tail Ht; by apply Forall_forall).
  destruct r; [|destruct (Fitz.save_raises env output_pdf)]; cbn [snd]; intros Hin.
  - apply (Hcopy c Hsub).
    apply (Hmid [] (Htails [] ltac:(constructor)) c Hsub).
    by rewrite app_nil_r.
  - apply (Hcopy (p :: l)); [done|].
    apply (Hmid [EvClose 1; EvClose 0]); [|done|done].
    apply Htails. by repeat constructor.
  - apply (Hcopy (p :: l)); [done|].
    apply (Hmid [EvSave 1 output_pdf; EvClose 1; EvClose 0; EvPrint output_pdf]);
      [|done|done].
    apply Htails. by repeat constructor.
Qed.

Lemma extract_pages_copies_within_source_witness :
  EvInsertPdf 1 0 4 4 ∈ (run env_files "five.pdf" "out.pdf" "5,1-2").2 /\
  exists d l,
    Fitz.open_file env_files "five.pdf" = Some d /\
    parse_page_ranges "5,1-2" (Z.of_nat (Fitz.page_count d)) = Returns l /\
    1%nat = 1%nat /\ 0%nat = 0%nat /\ 4 = 4 /\ 4 + 1 ∈ l /\
    0 <= 4 < Z.of_nat (Fitz.page_count d).
Proof.
  assert (EvInsertPdf 1 0 4 4 ∈ (run env_files "five.pdf" "out.pdf" "5,1-2").2) as Hin.
  { apply (list_elem_of_lookup_2 _ 2). by vm_compute. }
  split; [exact Hin|].
  exact (extract_pages_copies_within_source env_files "five.pdf" "out.pdf" "5,1-2"
           1 0 4 4 Hin).
Defined.

Section Shapes.

Lemma opened_copy_phase input_pdf c tail :
  opened ([EvOpen 0 (Some input_pdf); EvOpen 1 None] ++ copies 1 0 c ++ tail) =
  [0%nat; 1%nat] ++ opened tail.
Proof. by rewrite !opened_app, opened_copies. Qed.

Lemma closed_copy_phase input_pdf c tail :
  closed ([EvOpen 0 (Some input_pdf); EvOpen 1 None] ++ copies 1 0 c ++ tail) =
  closed tail.
Proof. by rewrite !closed_app, closed_copies. Qed.

Lemma elem_of_copy_phase ev input_pdf c tail :
  ev ∈ [EvOpen 0 (Some input_pdf); EvOpen 1 None] ++ copies 1 0 c ++ tail <->
  ev = EvOpen 0 (Some input_pdf) \/ ev = EvOpen 1 None \/
  (exists p, p ∈ c /\ ev = EvInsertPdf 1 0 (p - 1) (p - 1)) \/ ev ∈ tail.
Proof.
  rewrite !elem_of_app, !elem_of_cons, elem_of_nil, elem_of_copies. tauto.
Qed.

End Shapes.

(** X11. In every run no handle is closed twice, a handle that is closed
    was opened before, and at most two handles are opened: the source
    first, then the output. *)
Theorem extract_pages_closes_at_most_once
    (env : Fitz.Env) (input_pdf output_pdf page_ranges : string) (h : nat) :
  let tr := (run env input_pdf output_pdf page_ranges).2 in
  (closes h tr <= 1)%nat /\
  (closes h tr = 1%nat -> h ∈ opened tr) /\
  opened tr `prefix_of` [0%nat; 1%nat].
Proof.
  rewrite run_unfold.
  assert (forall x,
    let tr := [EvOpen 0 x; EvClose 0] in
    (closes h tr <= 1)%nat /\ (closes h tr = 1%nat -> h ∈ opened tr) /\
    opened tr `prefix_of` [0%nat; 1%nat]) as Hshort.
  { intros x. unfold closes. cbv zeta.
    change (closed [EvOpen 0 x; EvClose 0]) with [0%nat].
    change (opened [EvOpen 0 x; EvClose 0]) with [0%nat].
    rewrite filter_cons, filter_nil. case_decide; subst; simpl.
    - split; [lia|]. split; [by left | by exists [1%nat]].
    - split; [lia|]. split; [lia | by exists [1%nat]]. }
  assert (forall x c tail,
    opened tail = [] -> closed tail = [] \/ closed tail = [1%nat; 0%nat] ->
    let tr := [EvOpen 0 (Some x); EvOpen 1 None] ++ copies 1 0 c ++ tail in
    (closes h tr <= 1)%nat /\ (closes h tr = 1%nat -> h ∈ opened tr) /\
    opened tr `prefix_of` [0%nat; 1%nat]) as Hlong.
  { intros x c tail Ho Hc. unfold closes. cbv zeta.
    rewrite opened_copy_phase, closed_copy_phase, Ho.
    destruct Hc as [-> | ->].
    - simpl. split; [lia|]. split; [lia | done].
    - rewrite !filter_cons, filter_nil, app_nil_r.
      repeat case_decide; subst; try discriminate; simpl;
        (split; [lia|]); (split; [|done]);
        first [ intros ?; lia | intros _; by left | intros _; by right; left ]. }
  destruct (Fitz.open_file env input_pdf) as [d|].
  2: { unfold closes. cbv zeta. cbn [snd]. change (closed []) with (@nil nat).
       change (opened []) with (@nil nat). rewrite filter_nil. simpl.
       split; [lia|]. split; [lia | by exists [0%nat; 1%nat]]. }
  destruct (Nat.eqb (Fitz.page_count d) 0); [apply Hshort|].
  destruct (parse_page_ranges page_ranges (Z.of_nat (Fitz.page_count d)))
    as [[|p l]|[e|]]; [apply Hshort| |apply Hshort|].
  2: { unfold closes. cbv zeta. cbn [snd].
       change (closed [EvOpen 0 (Some input_pdf)]) with (@nil nat).
       change (opened [EvOpen 0 (Some input_pdf)]) with [0%nat].
       rewrite filter_nil. simpl.
       split; [lia|]. split; [lia | by exists [1%nat]]. }
  destruct (copied d (p :: l)) as [c r].
  destruct r; [|destruct (Fitz.save_raises env output_pdf)]; cbn [fst snd].
  - rewrite <- (app_nil_r (copies 1 0 c)). apply Hlong; auto.
  - apply Hlong; auto.
  - apply Hlong; auto.
Qed.

Ltac injection_all :=
  repeat match goal with
         | H : EvSave _ _ = EvSave _ _ |- _ => injection H as ? ?
         | H : EvPrint _ = EvPrint _ |- _ => injection H as ?
         end.

Ltac trace_solver :=
  repeat match goal with
         | H : exists _, _ |- _ => destruct H
         | H : _ /\ _ |- _ => destruct H
         | H : _ \/ _ |- _ => destruct H
         end;
  subst; try discriminate; try done;
  try (injection_all; subst); try done; auto 10.

(** X12. In every run, exit status 0, a save of the output to
    [output_pdf], and the printed confirmation go together; nothing else is
    ever saved or announced. *)
Theorem extract_pages_success_signals
    (env : Fitz.Env) (input_pdf output_pdf page_ranges : string) :
  let '(o, tr) := run env input_pdf output_pdf page_ranges in
  (exit_status o = 0 <-> EvSave 1 output_pdf ∈ tr) /\
  (exit_status o = 0 <-> EvPrint output_pdf ∈ tr) /\
  (forall h path, EvSave h path ∈ tr -> h = 1%nat /\ path = output_pdf) /\
  (forall path, EvPrint path ∈ tr -> path = output_pdf).
Proof.
  rewrite run_unfold.
  assert (forall (m : exit_message) x,
    (exit_status (SystemExit m) = 0 <-> EvSave 1 output_pdf ∈ [EvOpen 0 x; EvClose 0]) /\
    (exit_status (SystemExit m) = 0 <-> EvPrint output_pdf ∈ [EvOpen 0 x; EvClose 0]) /\
    (forall h path, EvSave h path ∈ [EvOpen 0 x; EvClose 0] ->
                    h = 1%nat /\ path = output_pdf) /\
    (forall path, EvPrint path ∈ [EvOpen 0 x; EvClose 0] -> path = output_pdf)) as Hshort.
  { intros m x. repeat split; intros;
      rewrite ?elem_of_cons, ?elem_of_nil in *; simpl in *; trace_solver. }
  destruct (Fitz.open_file env input_pdf) as [d|].
  2: { repeat split; intros; rewrite ?elem_of_nil in *; simpl in *; trace_solver. }
  destruct (Nat.eqb (Fitz.page_count d) 0); [apply Hshort|].
  destruct (parse_page_ranges page_ranges (Z.of_nat (Fitz.page_count d)))
    as [[|p l]|[e|]]; [apply Hshort| |apply Hshort|].
  2: { repeat split; intros;
         rewrite ?elem_of_cons, ?elem_of_nil in *; simpl in *; trace_solver. }
  destruct (copied d (p :: l)) as [c r].
  destruct r; [|destruct (Fitz.save_raises env output_pdf)]; cbn [fst snd].
  - rewrite <- (app_nil_r (copies 1 0 c)).
    repeat split; intros;
      rewrite ?elem_of_copy_phase, ?elem_of_cons, ?elem_of_nil in *;
      simpl in *; trace_solver.
  - repeat split; intros;
      rewrite ?elem_of_copy_phase, ?elem_of_cons, ?elem_of_nil in *;
      simpl in *; trace_solver.
  - repeat split; intros;
      rewrite ?elem_of_copy_phase, ?elem_of_cons, ?elem_of_nil in *;
      simpl in *; trace_solver.
Qed.

Ltac exit_solver :=
  repeat match goal with
         | H : exists _, _ |- _ => destruct H
         | H : _ /\ _ |- _ => destruct H
         | H : Some _ = Some _ |- _ => injection H as H; subst
         | H : Returns _ = Returns _ |- _ => injection H as H; subst
         | H : Raises _ = Raises _ |- _ => injection H as H; subst
         | H : ExcValueError _ = ExcValueError _ |- _ => injection H as H; subst
         | H : SystemExit _ = SystemExit _ |- _ => injection H as H; subst
         | H : ErrorFormatoRangos _ = ErrorFormatoRangos _ |- _ => injection H as H; subst
         end;
  try discriminate; try congruence; try lia;
  try (rewrite ?elem_of_copy_phase, ?elem_of_cons, ?elem_of_nil in *; intuition discriminate);
  eauto 10.

(** X13. Each early exit has one cause.  The open-error message: the file
    does not open.  The empty-document message: it opens with no page,
    whatever the selection is.  The format-error message with error e: it
    has pages and the parser raises e.  The no-valid-pages message: it has
    pages and the parser returns the empty list.  And the output document
    is created exactly when the parser returns a non-empty list. *)
Theorem extract_pages_exit_causes
    (env : Fitz.Env) (input_pdf output_pdf page_ranges : string) :
  let '(o, tr) := run env input_pdf output_pdf page_ranges in
  (o = SystemExit (ErrorAlAbrir input_pdf (ExnLibrary OpenFailed)) <->
     Fitz.open_file env input_pdf = None) /\
  (o = SystemExit PdfVacio <->
     exists d, Fitz.open_file env input_pdf = Some d /\ Fitz.page_count d = 0%nat) /\
  (forall e, o = SystemExit (ErrorFormatoRangos e) <->
     exists d, Fitz.open_file env input_pdf = Some d /\ Fitz.page_count d <> 0%nat /\
               parse_page_ranges page_ranges (Z.of_nat (Fitz.page_count d)) = Raises e) /\
  (o = SystemExit NoPaginasValidas <->
     exists d, Fitz.open_file env input_pdf = Some d /\ Fitz.page_count d <> 0%nat /\
               parse_page_ranges page_ranges (Z.of_nat (Fitz.page_count d)) = Returns []) /\
  (EvOpen 1 None ∈ tr <->
     exists d p l, Fitz.open_file env input_pdf = Some d /\
               parse_page_ranges page_ranges (Z.of_nat (Fitz.page_count d)) =
                 Returns (p :: l)).
Proof.
  rewrite run_unfold.
  destruct (Fitz.open_file env input_pdf) as [d|] eqn:Hopen.
  2: { repeat split; intros; exit_solver. }
  destruct (Nat.eqb_spec (Fitz.page_count d) 0) as [Hz|Hnz].
  { repeat split; intros; exit_solver.
    match goal with H : parse_page_ranges _ _ = Returns (_ :: _) |- _ =>
      apply nonempty_selection_has_pages, Nat.eqb_neq in H end. lia. }
  destruct (parse_page_ranges page_ranges (Z.of_nat (Fitz.page_count d)))
    as [[|p l]|[e|]] eqn:Hparse.
  - repeat split; intros; exit_solver.
  - destruct (copied d (p :: l)) as [c r].
    destruct r; [|destruct (Fitz.save_raises env output_pdf)]; cbn [fst snd].
    + rewrite <- (app_nil_r (copies 1 0 c)). repeat split; intros; exit_solver.
    + repeat split; intros; exit_solver.
    + repeat split; intros; exit_solver.
  - repeat split; intros; exit_solver.
  - repeat split; intros; exit_solver.
Qed.

(** X14. When every page of a non-empty selection is copied and the save
    raises, the run exits with the save-error message after closing the
    output and then the source; nothing is saved and nothing is printed. *)
Theorem extract_pages_save_failure
    (env : Fitz.Env) (input_pdf output_pdf page_ranges : string)
    (d : Fitz.Document) (l : list Z) :
  Fitz.open_file env input_pdf = Some d ->
  parse_page_ranges page_ranges (Z.of_nat (Fitz.page_count d)) = Returns l ->
  l <> [] ->
  (forall p, p ∈ l -> Fitz.insert_pdf_raises d (p - 1) = false) ->
  Fitz.save_raises env output_pdf = true ->
  run env input_pdf output_pdf page_ranges =
  (SystemExit (ErrorAlGuardar output_pdf (ExnLibrary SaveFailed)),
   [EvOpen 0 (Some input_pdf); EvOpen 1 None] ++ copies 1 0 l ++
   [EvClose 1; EvClose 0]).
Proof.
  intros Hopen Hparse Hne Hok Hsave. destruct l as [|p l]; [done|].
  rewrite run_unfold, Hopen, (nonempty_selection_has_pages _ _ _ _ Hparse), Hparse.
  by rewrite (copied_all _ _ Hok), Hsave.
Qed.

Lemma extract_pages_save_failure_witness :
  run env_files "five.pdf" "ro.pdf" "2,2,9" =
  (SystemExit (ErrorAlGuardar "ro.pdf" (ExnLibrary SaveFailed)),
   [EvOpen 0 (Some "five.pdf"); EvOpen 1 None] ++ copies 1 0 [2] ++
   [EvClose 1; EvClose 0]).
Proof.
  apply (extract_pages_save_failure env_files "five.pdf" "ro.pdf" "2,2,9"
           {| Fitz.page_count := 5; Fitz.insert_pdf_raises := fun _ => false |});
    by vm_compute.
Defined.

(** X15. When the copy of a selected page raises, the exception leaves
    [extract_pages]: the pages before it in the list were copied, the others
    are not tried, nothing is saved, printed or closed, and the status is
    not 0. *)
Theorem extract_pages_copy_failure
    (env : Fitz.Env) (input_pdf output_pdf page_ranges : string)
    (d : Fitz.Document) (before post : list Z) (p : Z) :
  Fitz.open_file env input_pdf = Some d ->
  parse_page_ranges page_ranges (Z.of_nat (Fitz.page_count d)) =
    Returns (before ++ p :: post) ->
  (forall q, q ∈ before -> Fitz.insert_pdf_raises d (q - 1) = false) ->
  Fitz.insert_pdf_raises d (p - 1) = true ->
  run env input_pdf output_pdf page_ranges =
    (Raised (ExnLibrary InsertFailed),
     [EvOpen 0 (Some input_pdf); EvOpen 1 None] ++ copies 1 0 before) /\
  exit_status (run env input_pdf output_pdf page_ranges).1 <> 0.
Proof.
  intros Hopen Hparse Hok Hp.
  assert (run env input_pdf output_pdf page_ranges =
    (Raised (ExnLibrary InsertFailed),
     [EvOpen 0 (Some input_pdf); EvOpen 1 None] ++ copies 1 0 before)) as Hrun.
  { rewrite run_unfold, Hopen.
    destruct (before ++ p :: post) as [|p0 l0] eqn:Hl; [by destruct before|].
    rewrite (nonempty_selection_has_pages _ _ _ _ Hparse), Hparse.
    by rewrite <- Hl, (copied_stop _ _ _ _ Hok Hp). }
  by rewrite Hrun.
Qed.

Lemma extract_pages_copy_failure_witness :
  run env_files "broken.pdf" "out.pdf" "2-5" =
    (Raised (ExnLibrary InsertFailed),
     [EvOpen 0 (Some "broken.pdf"); EvOpen 1 None] ++ copies 1 0 [2; 3]) /\
  exit_status (run env_files "broken.pdf" "out.pdf" "2-5").1 <> 0.
Proof.
  apply (extract_pages_copy_failure env_files "broken.pdf" "out.pdf" "2-5"
           fourth_page_broken [2; 3] [5] 4); try by vm_compute.
  intros q Hq. repeat (apply elem_of_cons in Hq as [->|Hq]; [done|]).
  by apply elem_of_nil in Hq.
Defined.

(** * The parser on equivalent and on repeated selections *)

Section Selections.

Lemma filter_all (P : Z -> Prop) `{!forall x, Decision (P x)} (l : list Z) :
  Forall P l -> filter P l = l.
Proof.
  induction 1 as [|x l Hx _ IH]; [done|].
  by rewrite filter_cons, decide_True, IH.
Qed.

Lemma filter_none (P : Z -> Prop) `{!forall x, Decision (P x)} (l : list Z) :
  Forall (fun x => ~ P x) l -> filter P l = [].
Proof.
  induction 1 as [|x l Hx _ IH]; [done|].
  by rewrite filter_cons, decide_False, IH.
Qed.

End Selections.

(** X16. The result and the error depend on the selection only through its
    tokens: blanks around a token, empty tokens and stray commas never
    matter. *)
Theorem parse_page_ranges_same_tokens (spec spec' : string) (total : Z) :
  tokens spec = tokens spec' ->
  parse_page_ranges spec total = parse_page_ranges spec' total.
Proof.
  intros Htok. destruct (parse_page_ranges spec total) as [l|e] eqn:Hp; symmetry.
  - apply parse_returns. rewrite <- Htok. by apply parse_returns.
  - apply parse_raises. rewrite <- Htok. by apply (parse_raises spec total).
Qed.

Lemma parse_page_ranges_same_tokens_witness :
  tokens " 3 ,, 1-2 ," = ["3"; "1-2"] /\
  parse_page_ranges " 3 ,, 1-2 ," 9 = parse_page_ranges "3,1-2" 9.
Proof.
  split; [by vm_compute|].
  apply (parse_page_ranges_same_tokens " 3 ,, 1-2 ," "3,1-2" 9). by vm_compute.
Defined.

(** X17. A selection whose tokens name distinct pages of the document, none
    twice, is returned as written: the tokens' values in order. *)
Theorem parse_page_ranges_as_written
    (spec : string) (total : Z) (vss : list (list Z)) :
  Forall2 (fun t vs => part_values t = Returns vs) (tokens spec) vss ->
  NoDup (concat vss) ->
  Forall (fun p => 1 <= p <= total) (concat vss) ->
  parse_page_ranges spec total = Returns (concat vss).
Proof.
  intros Hvss Hnd Hall. apply parse_returns. exists vss. split; [done|].
  rewrite filter_pages_first_occurrences.
  rewrite (filter_all (in_range total)) by done.
  symmetry. by apply first_occurrences_NoDup.
Qed.

Lemma parse_page_ranges_as_written_witness :
  parse_page_ranges "5,1-2" 5 = Returns (concat [[5]; [1; 2]]).
Proof.
  apply (parse_page_ranges_as_written "5,1-2" 5 [[5]; [1; 2]]).
  - change (tokens "5,1-2") with ["5"; "1-2"]. by repeat constructor.
  - apply (bool_decide_unpack _). by vm_compute.
  - by repeat constructor.
Defined.

(** X18. Writing a selection twice, joined by a comma, changes nothing:
    same result, same error. *)
Theorem parse_page_ranges_repeated (spec : string) (total : Z) :
  parse_page_ranges (spec +:+ String "," spec) total = parse_page_ranges spec total.
Proof.
  destruct (parse_page_ranges spec total) as [l|e] eqn:Hp.
  - apply parse_returns in Hp as (vss & Hvss & ->).
    apply parse_returns. exists (vss ++ vss). rewrite tokens_comma.
    split; [by apply Forall2_app|].
    rewrite !filter_pages_first_occurrences, concat_app, filter_app.
    rewrite first_occurrences_app.
    rewrite (filter_none (fun y => y ∉ filter (in_range total) (concat vss)));
      [by rewrite app_nil_r|].
    apply Forall_forall. intros p Hin Hnot.
    rewrite elem_of_first_occurrences in Hin. exact (Hnot Hin).
  - apply parse_raises in Hp as (pre & t & post & Htok & Hpre & Ht).
    apply parse_raises. exists pre, t, (post ++ tokens spec).
    rewrite tokens_comma, Htok, <- app_assoc. done.
Qed.
